(** * LimitlessFlashBot: the scan, score, gate and execute loop

    A shallow embedding of the off-chain executor of LimitlessFlashBot
    (the JavaScript classes [RiskManager], [QuantumSignalProcessor],
    [ArbitrageCalculator], [FlashbotsExecutor], [PriceMonitor] and the
    scanning loop of [LimitlessFlashBotExecutor]) together with the
    properties its specification states about them.

    Conventions of the embedding:
    - an [ethers.BigNumber] is a [Z] (arbitrary precision, as in ethers);
      [BigNumber.div] truncates towards zero, hence [Z.quot];
    - a JavaScript number that holds a counter is a [nat], a timestamp in
      milliseconds is a [Z];
    - a JavaScript number that holds a ratio, a weight or a score is a
      rational [Q]: the arithmetic is the exact one, rounding of IEEE
      doubles is not modelled;
    - [Date.now()] is an argument of the operation that reads it;
    - logging is not modelled, it has no effect on the values computed. *)

From Stdlib Require Import ZArith QArith Qminmax Lia Reals Psatz.
From stdpp Require Import base strings list gmap pretty.

(** ** Part I: the program *)

(** *** Values shared by the classes *)

Module Ethers.

(** [ethers.utils.parseEther]: ether to wei. *)
Definition parseEther (n : Z) : Z := (n * 10 ^ 18)%Z.

(** [ethers.utils.parseEther] of a decimal fraction [n / 10^k]. *)
Definition parseMilliEther (n : Z) : Z := (n * 10 ^ 15)%Z.

(** [ethers.utils.parseUnits(n, 'gwei')]. *)
Definition parseGwei (n : Z) : Z := (n * 10 ^ 9)%Z.

(** [parseFloat(ethers.utils.formatEther(x))]: wei to ether, as a number. *)
Definition etherOf (x : Z) : Q := (inject_Z x / inject_Z (10 ^ 18))%Q.

(** [a.mul(n).div(d)] on BigNumbers. *)
Definition mulDiv (a n d : Z) : Z := Z.quot (a * n) d.

End Ethers.

(** The object returned by [findArbitrageOpportunity]. *)
Record Opportunity := {
  token0 : string;
  token1 : string;
  asset : string;
  amount : Z;
  estimatedProfit : Z;
  profitability : Q;
  path1 : list string;
  path2 : list string;
  router1 : string;
  router2 : string;
  minProfit : Z;
  timestamp : Z
}.

(** The object returned by [executeBundle] and [waitForBundleInclusion]. *)
Record ExecResult := {
  success : bool;
  error : option string;
  bundleHash : option string;
  txHash : option string;
  blockNumber : option Z
}.

(** [hay.includes(needle)] on strings. *)
Fixpoint startsWith (needle hay : string) : bool :=
  match needle, hay with
  | EmptyString, _ => true
  | String a n', String b h' => if Ascii.eqb a b then startsWith n' h' else false
  | String _ _, EmptyString => false
  end.

Fixpoint includes (needle hay : string) : bool :=
  startsWith needle hay ||
  match hay with
  | EmptyString => false
  | String _ h' => includes needle h'
  end.

(** *** RiskManager (risk-manager.js) *)

Module RiskManager.

Record RiskParams := {
  maxDailyLoss : Z;
  maxSingleTradeLoss : Z;
  minProfitThreshold : Z;
  maxSlippage : Z;
  maxGasPrice : Z;
  maxLiquidityUtilization : Z;
  cooldownPeriod : Z;
  maxConsecutiveFailures : nat;
  volatilityThreshold : Q;
  liquidityThreshold : Z
}.

(** The parameters the constructor installs. *)
Definition defaultRiskParams : RiskParams := {|
  maxDailyLoss := Ethers.parseEther 1;
  maxSingleTradeLoss := Ethers.parseMilliEther 100;
  minProfitThreshold := Ethers.parseMilliEther 1;
  maxSlippage := 5;
  maxGasPrice := Ethers.parseGwei 100;
  maxLiquidityUtilization := 90;
  cooldownPeriod := 60000;
  maxConsecutiveFailures := 3;
  volatilityThreshold := 0.1;
  liquidityThreshold := Ethers.parseEther 10
|}.

Record RiskState := {
  dailyLoss : Z;
  dailyProfit : Z;
  consecutiveFailures : nat;
  lastTradeTime : Z;
  totalTrades : nat;
  successfulTrades : nat;
  lastResetTime : Z;
  isPaused : bool;
  pauseReason : option string
}.

(** The risk state of the constructor and of [resetRiskState]. *)
Definition freshRiskState (now : Z) : RiskState := {|
  dailyLoss := 0;
  dailyProfit := 0;
  consecutiveFailures := 0;
  lastTradeTime := 0;
  totalTrades := 0;
  successfulTrades := 0;
  lastResetTime := now;
  isPaused := false;
  pauseReason := None
|}.

(** An entry of [tradeHistory]. *)
Record Trade := {
  tradeTimestamp : Z;
  tradeOpportunity : Opportunity;
  tradeResult : ExecResult;
  tradeProfit : Z;
  tradeLoss : Z
}.

(** The fields of a [RiskManager] instance. *)
Record t := {
  riskParams : RiskParams;
  riskState : RiskState;
  tradeHistory : list Trade;
  maxHistorySize : nat
}.

Definition create (now : Z) : t := {|
  riskParams := defaultRiskParams;
  riskState := freshRiskState now;
  tradeHistory := [];
  maxHistorySize := 1000
|}.

Definition withRiskState (rm : t) (rs : RiskState) : t := {|
  riskParams := riskParams rm;
  riskState := rs;
  tradeHistory := tradeHistory rm;
  maxHistorySize := maxHistorySize rm
|}.

(** One entry of the checklist. The source also stores two formatted
    texts, [value] and [threshold], which only feed the log line and the
    failure message; they are not modelled. *)
Record RiskCheck := {
  name : string;
  passed : bool;
  weight : Q
}.

Definition checkProfitThreshold (rm : t) (o : Opportunity) : RiskCheck := {|
  name := "profit_threshold";
  passed := (minProfitThreshold (riskParams rm) <=? estimatedProfit o)%Z;
  weight := 0.2
|}.

Definition estimatedLoss (rm : t) (o : Opportunity) : Z :=
  Ethers.mulDiv (amount o) (maxSlippage (riskParams rm)) 100.

Definition checkDailyLossLimit (rm : t) (o : Opportunity) : RiskCheck :=
  let potentialDailyLoss := (dailyLoss (riskState rm) + estimatedLoss rm o)%Z in
  {| name := "daily_loss_limit";
     passed := (potentialDailyLoss <=? maxDailyLoss (riskParams rm))%Z;
     weight := 0.3 |}.

Definition checkSingleTradeLossLimit (rm : t) (o : Opportunity) : RiskCheck := {|
  name := "single_trade_loss_limit";
  passed := (estimatedLoss rm o <=? maxSingleTradeLoss (riskParams rm))%Z;
  weight := 0.2
|}.

Definition estimateSlippage (o : Opportunity) : Q :=
  let baseSlippage := 0.1%Q in
  let amountETH := Ethers.etherOf (amount o) in
  let sizeMultiplier := Qmin (amountETH / 10) 5 in
  (baseSlippage * (1 + sizeMultiplier))%Q.

Definition checkSlippage (rm : t) (o : Opportunity) : RiskCheck := {|
  name := "slippage_check";
  passed := Qle_bool (estimateSlippage o) (inject_Z (maxSlippage (riskParams rm)));
  weight := 0.15
|}.

Definition checkGasPrice (rm : t) : RiskCheck :=
  let currentGasPrice := Ethers.parseGwei 50 in
  {| name := "gas_price_check";
     passed := (currentGasPrice <=? maxGasPrice (riskParams rm))%Z;
     weight := 0.1 |}.

Definition checkLiquidityUtilization (rm : t) (o : Opportunity) : RiskCheck :=
  let utilizationPercentage := 75%Z in
  {| name := "liquidity_utilization";
     passed := (utilizationPercentage <=? maxLiquidityUtilization (riskParams rm))%Z;
     weight := 0.1 |}.

Definition checkCooldownPeriod (rm : t) (now : Z) : RiskCheck :=
  let timeSinceLastTrade := (now - lastTradeTime (riskState rm))%Z in
  {| name := "cooldown_period";
     passed := (cooldownPeriod (riskParams rm) <=? timeSinceLastTrade)%Z;
     weight := 0.05 |}.

Definition checkConsecutiveFailures (rm : t) : RiskCheck := {|
  name := "consecutive_failures";
  passed := (consecutiveFailures (riskState rm) <? maxConsecutiveFailures (riskParams rm))%nat;
  weight := 0.2
|}.

Definition checkVolatility (rm : t) (o : Opportunity) : RiskCheck :=
  let volatility := 0.05%Q in
  {| name := "volatility_check";
     passed := Qle_bool volatility (volatilityThreshold (riskParams rm));
     weight := 0.15 |}.

Definition checkLiquidityThreshold (rm : t) (o : Opportunity) : RiskCheck :=
  let availableLiquidity := Ethers.parseEther 50 in
  {| name := "liquidity_threshold";
     passed := (liquidityThreshold (riskParams rm) <=? availableLiquidity)%Z;
     weight := 0.1 |}.

(** The array handed to [Promise.all] in [assessRisk], in its order. *)
Definition riskChecks (rm : t) (o : Opportunity) (now : Z) : list RiskCheck :=
  [ checkProfitThreshold rm o;
    checkDailyLossLimit rm o;
    checkSingleTradeLossLimit rm o;
    checkSlippage rm o;
    checkGasPrice rm;
    checkLiquidityUtilization rm o;
    checkCooldownPeriod rm now;
    checkConsecutiveFailures rm;
    checkVolatility rm o;
    checkLiquidityThreshold rm o ].

(** The body of the [for] loop of [calculateRiskScore], on the pair
    [(totalWeight, weightedScore)]. *)
Definition scoreStep (acc : Q * Q) (c : RiskCheck) : Q * Q :=
  ((fst acc + weight c)%Q,
   (snd acc + (if passed c then 0 else weight c))%Q).

Definition calculateRiskScore (checks : list RiskCheck) : Q :=
  let '(totalWeight, weightedScore) := fold_left scoreStep checks (0%Q, 0%Q) in
  if Qlt_le_dec 0 totalWeight then (weightedScore / totalWeight)%Q else 1%Q.

(** The text of an assessment's [reason]. For a failed check the source
    appends the two formatted texts to the check's name; the model keeps
    the name. *)
Inductive Reason :=
| SystemPaused (why : option string)
| RiskAssessmentPassed
| HighRiskScore
| CheckFailed (primary : string).

(** [getFailureReason]: the failed check of largest weight, the later
    one on a tie. *)
Definition getFailureReason (checks : list RiskCheck) : Reason :=
  match filter (fun c => passed c = false) checks with
  | [] => HighRiskScore
  | c :: cs =>
      let primaryFailure :=
        fold_left (fun prev current =>
                     if Qlt_le_dec (weight current) (weight prev)
                     then prev else current) cs c in
      CheckFailed (name primaryFailure)
  end.

Record Assessment := {
  approved : bool;
  riskScore : Q;
  checks : option (list RiskCheck);
  reason : Reason
}.

Definition oneDayMs : Z := 24 * 60 * 60 * 1000.

Definition resetDailyCountersIfNeeded (now : Z) (rm : t) : t :=
  let rs := riskState rm in
  let timeSinceReset := (now - lastResetTime rs)%Z in
  if (oneDayMs <=? timeSinceReset)%Z then
    withRiskState rm {|
      dailyLoss := 0;
      dailyProfit := 0;
      consecutiveFailures := consecutiveFailures rs;
      lastTradeTime := lastTradeTime rs;
      totalTrades := totalTrades rs;
      successfulTrades := successfulTrades rs;
      lastResetTime := now;
      isPaused := isPaused rs;
      pauseReason := pauseReason rs |}
  else rm.

(** [assessRisk]. The [catch] branch of the source is not reachable on
    a well-formed opportunity: no operation of the body throws. *)
Definition assessRisk (o : Opportunity) (now : Z) (rm : t) : Assessment * t :=
  let rm := resetDailyCountersIfNeeded now rm in
  if isPaused (riskState rm) then
    ({| approved := false;
        riskScore := 1;
        checks := None;
        reason := SystemPaused (pauseReason (riskState rm)) |}, rm)
  else
    let cs := riskChecks rm o now in
    let score := calculateRiskScore cs in
    let ok := forallb passed cs && (if Qlt_le_dec score 0.7 then true else false) in
    ({| approved := ok;
        riskScore := score;
        checks := Some cs;
        reason := if ok then RiskAssessmentPassed else getFailureReason cs |}, rm).

Definition pauseSystem (why : string) (rm : t) : t :=
  let rs := riskState rm in
  withRiskState rm {|
    dailyLoss := dailyLoss rs;
    dailyProfit := dailyProfit rs;
    consecutiveFailures := consecutiveFailures rs;
    lastTradeTime := lastTradeTime rs;
    totalTrades := totalTrades rs;
    successfulTrades := successfulTrades rs;
    lastResetTime := lastResetTime rs;
    isPaused := true;
    pauseReason := Some why |}.

Definition resumeSystem (rm : t) : t :=
  let rs := riskState rm in
  withRiskState rm {|
    dailyLoss := dailyLoss rs;
    dailyProfit := dailyProfit rs;
    consecutiveFailures := 0;
    lastTradeTime := lastTradeTime rs;
    totalTrades := totalTrades rs;
    successfulTrades := successfulTrades rs;
    lastResetTime := lastResetTime rs;
    isPaused := false;
    pauseReason := None |}.

(** [tradeHistory.push(trade)] followed by the bounded [shift()]. *)
Definition pushHistory (tr : Trade) (rm : t) : t :=
  let h := tradeHistory rm ++ [tr] in
  {| riskParams := riskParams rm;
     riskState := riskState rm;
     tradeHistory := if (maxHistorySize rm <? length h)%nat then tail h else h;
     maxHistorySize := maxHistorySize rm |}.

Definition recordTradeResult (o : Opportunity) (r : ExecResult) (now : Z) (rm : t) : t :=
  let trade := {|
    tradeTimestamp := now;
    tradeOpportunity := o;
    tradeResult := r;
    tradeProfit := if success r then estimatedProfit o else 0%Z;
    tradeLoss := if success r then 0%Z else estimatedProfit o |} in
  let rm := pushHistory trade rm in
  let rs := riskState rm in
  if success r then
    withRiskState rm {|
      dailyLoss := dailyLoss rs;
      dailyProfit := (dailyProfit rs + estimatedProfit o)%Z;
      consecutiveFailures := 0;
      lastTradeTime := now;
      totalTrades := S (totalTrades rs);
      successfulTrades := S (successfulTrades rs);
      lastResetTime := lastResetTime rs;
      isPaused := isPaused rs;
      pauseReason := pauseReason rs |}
  else
    let failures := S (consecutiveFailures rs) in
    let rm := withRiskState rm {|
      dailyLoss := (dailyLoss rs + estimatedProfit o)%Z;
      dailyProfit := dailyProfit rs;
      consecutiveFailures := failures;
      lastTradeTime := now;
      totalTrades := S (totalTrades rs);
      successfulTrades := successfulTrades rs;
      lastResetTime := lastResetTime rs;
      isPaused := isPaused rs;
      pauseReason := pauseReason rs |} in
    if (maxConsecutiveFailures (riskParams rm) <=? failures)%nat
    then pauseSystem ("Too many consecutive failures: " +:+ pretty failures) rm
    else rm.

(** The calls a client makes on one [RiskManager], short of [resumeSystem]. *)
Inductive Call :=
| Assess (o : Opportunity) (now : Z)
| Record (o : Opportunity) (r : ExecResult) (now : Z).

(** Runs the calls in order; returns the assessments made and the final
    instance. *)
Fixpoint runCalls (cs : list Call) (rm : t) : list Assessment * t :=
  match cs with
  | [] => ([], rm)
  | Assess o now :: cs' =>
      let '(a, rm1) := assessRisk o now rm in
      let '(as', rm2) := runCalls cs' rm1 in
      (a :: as', rm2)
  | Record o r now :: cs' => runCalls cs' (recordTradeResult o r now rm)
  end.

(** A call that records a failed execution. *)
Definition failedRecord (c : Call) : Prop :=
  match c with
  | Record _ r _ => success r = false
  | Assess _ _ => False
  end.

End RiskManager.

(** The reading of the specification's words for the risk score: the
    sum of the weights of the failed checks over the sum of all weights.
    It is compared below with the code's [RiskManager.calculateRiskScore]. *)
Module RiskScoreSpec.

Import RiskManager.

Fixpoint totalWeight (cs : list RiskCheck) : Q :=
  match cs with
  | [] => 0
  | c :: cs' => weight c + totalWeight cs'
  end.

Definition failedChecks (cs : list RiskCheck) : list RiskCheck :=
  List.filter (fun c => negb (passed c)) cs.

Definition riskScore (cs : list RiskCheck) : Q :=
  totalWeight (failedChecks cs) / totalWeight cs.

End RiskScoreSpec.

(** Sample values used to exercise the definitions. *)
Module Samples.

(** One ether of WETH against DAI with a profit of 0.002 ether. *)
Definition opportunity : Opportunity := {|
  token0 := "WETH";
  token1 := "DAI";
  asset := "0xC02aaA39b223FE8D0A0e5C4F27eAD9083C756Cc2";
  amount := Ethers.parseEther 1;
  estimatedProfit := Ethers.parseMilliEther 2;
  profitability := 0.002;
  path1 := ["0xC02aaA39b223FE8D0A0e5C4F27eAD9083C756Cc2";
            "0x6B175474E89094C44Da98b954EedeAC495271d0F"];
  path2 := ["0x6B175474E89094C44Da98b954EedeAC495271d0F";
            "0xC02aaA39b223FE8D0A0e5C4F27eAD9083C756Cc2"];
  router1 := "0x7a250d5630B4cF539739dF2C5dAcb4c659F2488D";
  router2 := "0xd9e1cE17f2641f24aE83637ab66a2cca9C378B9F";
  minProfit := Ethers.mulDiv (Ethers.parseMilliEther 2) 95 100;
  timestamp := 0
|}.

Definition failure : ExecResult := {|
  success := false;
  error := Some "Bundle not included within wait period";
  bundleHash := Some "0xb1";
  txHash := None;
  blockNumber := None
|}.

Definition included : ExecResult := {|
  success := true;
  error := None;
  bundleHash := Some "0xb1";
  txHash := Some "0x71";
  blockNumber := Some 101%Z
|}.

(** Three failed executions in a row, one second apart. *)
Definition threeFailures : list RiskManager.Call :=
  [ RiskManager.Record opportunity failure 1000;
    RiskManager.Record opportunity failure 2000;
    RiskManager.Record opportunity failure 3000 ].

End Samples.

(** *** QuantumSignalProcessor (quantum-signal-processor.js) *)

Module QuantumSignalProcessor.

Inductive Source := quantum | fallback.

(** A signal object. The numeric fields of a signal that comes from the
    external script are whatever the parsed JSON holds: [None] stands
    for a field that is absent or is not a number. *)
Record Signal := {
  signal_strength : option Q;
  confidence : option Q;
  quantum_features : option (list Q);
  sigTimestamp : option string;
  source : Source
}.

(** The object [JSON.parse] yields for the script's standard output:
    [out_error] is [Some] when the object has a truthy [error] field. *)
Record ScriptOutput := {
  out_error : option string;
  out_signal_strength : option Q;
  out_confidence : option Q;
  out_quantum_features : option (list Q);
  out_timestamp : option string
}.

Definition errorOutput (msg : string) : ScriptOutput := {|
  out_error := Some msg;
  out_signal_strength := None;
  out_confidence := None;
  out_quantum_features := None;
  out_timestamp := None
|}.

(** How the spawned python process ends: it closes with an exit code
    and a standard output that parses as JSON or does not, it fails to
    start, or the ten seconds pass first. *)
Inductive PythonRun :=
| Closed (code : Z) (parsed : option ScriptOutput)
| SpawnFailed (msg : string)
| TimedOut.

(** [runPythonScript]: the promise always resolves, never rejects. *)
Definition runPythonScript (run : PythonRun) : ScriptOutput :=
  match run with
  | Closed 0 (Some out) => out
  | Closed 0 None => errorOutput "Failed to parse Python output"
  | Closed code _ => errorOutput ("Python script exited with code " +:+ pretty code)
  | SpawnFailed msg => errorOutput msg
  | TimedOut => errorOutput "Python script timeout"
  end.

(** [getFallbackSignal]; [nowIso] is [new Date().toISOString()]. *)
Definition getFallbackSignal (o : Opportunity) (nowIso : string) : Signal :=
  let profitScore := Qmin (profitability o * 10) 1 in
  let amountScore := Qmin (inject_Z (amount o) / inject_Z (10 ^ 20)) 1 in
  let strength := ((profitScore + amountScore) / 2)%Q in
  let conf := Qmax 0.3 (Qmin 0.8 strength) in
  {| signal_strength := Some strength;
     confidence := Some conf;
     quantum_features := Some [0%Q; 0%Q; 0%Q; 0%Q];
     sigTimestamp := Some nowIso;
     source := fallback |}.

(** [processSignal], given the flag [isInitialized] and the way the
    script run ends. The run is not started when the flag is off. *)
Definition processSignal (isInitialized : bool) (o : Opportunity)
    (run : PythonRun) (nowIso : string) : Signal :=
  if negb isInitialized then getFallbackSignal o nowIso
  else
    let result := runPythonScript run in
    match out_error result with
    | Some _ => getFallbackSignal o nowIso
    | None =>
        {| signal_strength := out_signal_strength result;
           confidence := out_confidence result;
           quantum_features := out_quantum_features result;
           sigTimestamp := out_timestamp result;
           source := quantum |}
    end.

(** [validateSignal]: both fields are numbers between 0 and 1. *)
Definition validateSignal (s : Signal) : bool :=
  match signal_strength s, confidence s with
  | Some st, Some c =>
      Qle_bool 0 st && Qle_bool st 1 && Qle_bool 0 c && Qle_bool c 1
  | _, _ => false
  end.

End QuantumSignalProcessor.

(** The reading of the specification's words for the fallback signal:
    [clamp] and the two ratios of the heuristic. *)
Module SignalSpec.

Definition clamp (x lo hi : Q) : Q :=
  if Qlt_le_dec x lo then lo
  else if Qlt_le_dec hi x then hi
  else x.

(** The profit ratio: ten times the profitability, at most 1. *)
Definition profitRatio (o : Opportunity) : Q :=
  Qmin (profitability o * 10) 1.

(** The size ratio: the amount in units of 100 ether, at most 1. *)
Definition sizeRatio (o : Opportunity) : Q :=
  Qmin (inject_Z (amount o) / inject_Z (10 ^ 20)) 1.

Definition strength (o : Opportunity) : Q :=
  clamp ((profitRatio o + sizeRatio o) / 2) 0 1.

Definition confidence (o : Opportunity) : Q :=
  clamp (strength o) 0.3 0.8.

End SignalSpec.

Module SignalSamples.

Import QuantumSignalProcessor.


(** A script that exits normally and prints a strength of 1.5 and a
    confidence of 2. *)
Definition outOfRange : PythonRun :=
  Closed 0 (Some {| out_error := None;
                    out_signal_strength := Some 1.5%Q;
                    out_confidence := Some 2%Q;
                    out_quantum_features := Some [0%Q; 0%Q; 0%Q; 0%Q];
                    out_timestamp := Some "2024-01-01T00:00:00" |}).

(** A script that exits normally and prints values within range. *)
Definition inRange : PythonRun :=
  Closed 0 (Some {| out_error := None;
                    out_signal_strength := Some 0.9%Q;
                    out_confidence := Some 0.75%Q;
                    out_quantum_features := Some [0%Q; 0%Q; 0%Q; 0%Q];
                    out_timestamp := Some "2024-01-01T00:00:00" |}).

End SignalSamples.

(** *** ArbitrageCalculator (arbitrage-calculator.js) *)

Module ArbitrageCalculator.

Inductive Dex := UNISWAP_V2 | SUSHISWAP | UNISWAP_V3.

(** [this.routers]. *)
Definition routers (d : Dex) : string :=
  match d with
  | UNISWAP_V2 => "0x7a250d5630B4cF539739dF2C5dAcb4c659F2488D"
  | SUSHISWAP => "0xd9e1cE17f2641f24aE83637ab66a2cca9C378B9F"
  | UNISWAP_V3 => "0xE592427A0AEce92De3Edee1F18E0157C05861564"
  end.

(** [this.tokens]: symbol to address. *)
Definition tokens : gmap string string :=
  list_to_map
    [ ("WETH", "0xC02aaA39b223FE8D0A0e5C4F27eAD9083C756Cc2");
      ("DAI", "0x6B175474E89094C44Da98b954EedeAC495271d0F");
      ("USDC", "0xA0b86a33E6441E6C5E6c7c8b0E0c4B5c5c5c5c5c");
      ("USDT", "0xdAC17F958D2ee523a2206206994597C13D831ec7");
      ("WBTC", "0x2260FAC5E5542a773Aa44fBCfeDf7C193bc2C599") ].

Record Pair := { pairToken0 : string; pairToken1 : string }.

(** The object [getPrice] returns. *)
Record PriceQuote := {
  amountIn : Z;
  amountOut : Z;
  price : Z;
  dex : Dex
}.

(** An entry of the array [opportunities] of [calculateArbitrageProfit]. *)
Record Candidate := {
  profit : Z;
  candAmount : Z;
  candPath1 : list string;
  candPath2 : list string;
  candRouter1 : string;
  candRouter2 : string;
  candType : string
}.

(** The amounts tried by [findArbitrageOpportunity], in wei. *)
Definition testAmounts : list Z :=
  [ Ethers.parseEther 1; Ethers.parseEther 5; Ethers.parseEther 10;
    Ethers.parseEther 50; Ethers.parseEther 100 ].

(** The profit floor of [findArbitrageOpportunity]: 0.001 ether. *)
Definition profitFloor : Z := Ethers.parseMilliEther 1.

Section Chain.

(** The chain behind the provider: a state that every call may read
    and advance. [getAmountsOut d amountIn path] is the router call
    of DEX [d] and [getGasPrice] the provider call; [None] is a call
    that throws. *)
Variable World : Type.
Variable getAmountsOut : Dex -> Z -> list string -> World -> option (list Z) * World.
Variable getGasPrice : World -> option Z * World.

Definition M (A : Type) : Type := World -> A * World.
Definition ret {A} (a : A) : M A := fun w => (a, w).
Definition bind {A B} (m : M A) (k : A -> M B) : M B :=
  fun w => let '(a, w') := m w in k a w'.

Notation "'do' x <- m ; k" := (bind m (fun x => k))
  (at level 10, x name, m at level 100, k at level 200).

Definition getAmountOut (tokenIn tokenOut : string) (amtIn : Z) (d : Dex)
  : M (option Z) :=
  match d with
  | UNISWAP_V3 => ret None
  | _ =>
      do amounts <- getAmountsOut d amtIn [tokenIn; tokenOut];
      ret (match amounts with
           | Some l => last l
           | None => None
           end)
  end.

(** [getPrice]; the division by a zero [amountIn] throws inside the
    [try], which yields [null]. *)
Definition getPrice (tokenIn tokenOut : string) (amtIn : Z) (d : Dex)
  : M (option PriceQuote) :=
  do out <- getAmountOut tokenIn tokenOut amtIn d;
  ret (match out with
       | Some aOut =>
           if (amtIn =? 0)%Z then None
           else Some {| amountIn := amtIn;
                        amountOut := aOut;
                        price := Z.quot (aOut * Ethers.parseEther 1) amtIn;
                        dex := d |}
       | None => None
       end).

(** One of the two paths of [calculateArbitrageProfit]: buy on [buy],
    sell the intermediate amount on [sell]. *)
Definition tryPath (tok0 tok1 : string) (amt : Z)
    (forward backward : option PriceQuote) (buy sell : Dex) (label : string)
  : M (list Candidate) :=
  match forward, backward with
  | Some f, Some _ =>
      let intermediateAmount := amountOut f in
      do finalAmount <- getAmountOut tok1 tok0 intermediateAmount sell;
      ret (match finalAmount with
           | Some fin =>
               if (amt <? fin)%Z then
                 [ {| profit := (fin - amt)%Z;
                      candAmount := amt;
                      candPath1 := [tok0; tok1];
                      candPath2 := [tok1; tok0];
                      candRouter1 := routers buy;
                      candRouter2 := routers sell;
                      candType := label |} ]
               else []
           | None => []
           end)
  | _, _ => ret []
  end.

(** [opportunities.reduce((best, current) => ...)] without a seed. *)
Definition bestCandidate (l : list Candidate) : option Candidate :=
  match l with
  | [] => None
  | c :: cs =>
      Some (fold_left (fun best current =>
                         if (profit best <? profit current)%Z
                         then current else best) cs c)
  end.

Definition calculateArbitrageProfit (tok0 tok1 : string) (amt : Z)
  : M (option Candidate) :=
  do uniV2_0to1 <- getPrice tok0 tok1 amt UNISWAP_V2;
  do sushi_0to1 <- getPrice tok0 tok1 amt SUSHISWAP;
  do uniV2_1to0 <- getPrice tok1 tok0 amt UNISWAP_V2;
  do sushi_1to0 <- getPrice tok1 tok0 amt SUSHISWAP;
  do first <- tryPath tok0 tok1 amt uniV2_0to1 sushi_1to0
                UNISWAP_V2 SUSHISWAP "UNI_V2 -> SUSHI";
  do second <- tryPath tok0 tok1 amt sushi_0to1 uniV2_1to0
                 SUSHISWAP UNISWAP_V2 "SUSHI -> UNI_V2";
  ret (bestCandidate (first ++ second)).

(** The loop of [findArbitrageOpportunity] over the test amounts, on
    the pair [(bestOpportunity, maxProfit)]. *)
Fixpoint scanAmounts (tok0 tok1 : string) (amts : list Z)
    (acc : option Candidate * Z) : M (option Candidate * Z) :=
  match amts with
  | [] => ret acc
  | amt :: rest =>
      do c <- calculateArbitrageProfit tok0 tok1 amt;
      scanAmounts tok0 tok1 rest
        (match c with
         | Some cand =>
             if (snd acc <? profit cand)%Z then (Some cand, profit cand) else acc
         | None => acc
         end)
  end.

Definition findArbitrageOpportunity (pair : Pair) (now : Z)
  : M (option Opportunity) :=
  match tokens !! pairToken0 pair, tokens !! pairToken1 pair with
  | Some token0Address, Some token1Address =>
      do found <- scanAmounts token0Address token1Address testAmounts (None, 0%Z);
      ret (match found with
           | (Some best, maxProfit) =>
               if (profitFloor <? maxProfit)%Z then
                 Some {| token0 := pairToken0 pair;
                         token1 := pairToken1 pair;
                         asset := token0Address;
                         amount := candAmount best;
                         estimatedProfit := maxProfit;
                         profitability := Ethers.etherOf maxProfit;
                         path1 := candPath1 best;
                         path2 := candPath2 best;
                         router1 := candRouter1 best;
                         router2 := candRouter2 best;
                         minProfit := Ethers.mulDiv maxProfit 95 100;
                         timestamp := now |}
               else None
           | (None, _) => None
           end)
  | _, _ => ret None
  end.



(** [post m P]: the value [m] computes satisfies [P], in every world. *)
Definition post {A} (m : M A) (P : A -> Prop) : Prop :=
  forall w, P (m w).1.

End Chain.

Arguments ret {World A} a w.
Arguments bind {World A B} m k w.
Arguments post {World A} m P.

(** A candidate for the amount [amt]: its profit is positive. *)
Definition candidateFor (amt : Z) (c : Candidate) : Prop :=
  (0 < profit c)%Z /\ candAmount c = amt.

(** The invariant of the loop over the test amounts. *)
Definition scanInv (acc : option Candidate * Z) : Prop :=
  (0 <= acc.2)%Z /\
  forall c, acc.1 = Some c ->
            profit c = acc.2 /\ (0 < profit c)%Z /\ In (candAmount c) testAmounts.

End ArbitrageCalculator.

(** Two sample chains for the scanner. The world is the number of router
    calls answered so far. *)
Module ChainSamples.

Import ArbitrageCalculator.






End ChainSamples.

(** *** FlashbotsExecutor (flashbots-executor.js) *)

Module FlashbotsExecutor.

Record BundleStats := {
  submitted : nat;
  included : nat;
  failed : nat;
  totalGasUsed : Z
}.

Definition freshStats : BundleStats :=
  {| submitted := 0; included := 0; failed := 0; totalGasUsed := 0 |}.

(** A transaction request, with the fields the executor reads or sets. *)
Record Tx := {
  txFrom : option string;
  txTo : option string;
  txData : string;
  gasLimit : option Z;
  gasPrice : option Z;
  txType : option Z;
  maxFeePerGas : option Z;
  maxPriorityFeePerGas : option Z;
  nonce : option Z
}.

(** The object [submitBundle] returns. *)
Record BundleResponse := {
  respBundleHash : option string;
  respError : option string
}.

(** The object the relay's [getBundleStats] returns. *)
Record RelayStats := {
  isSimulated : bool;
  isMined : bool
}.

(** What an external call answers: a value, or an error with a message. *)
Inductive Reply (A : Type) :=
| Answers (a : A)
| Fails (message : string).
Arguments Answers {A} a.
Arguments Fails {A} message.

(** How a computation of the executor ends. [OutOfFuel] belongs to the
    model only: the polling loop of [waitForBlock] is given a bound on
    its number of rounds. *)
Inductive Outcome (A : Type) :=
| Returned (a : A)
| Threw (message : string)
| OutOfFuel.
Arguments Returned {A} a.
Arguments Threw {A} message.
Arguments OutOfFuel {A}.

(** The message of a failed call. *)
Definition failureOf {A} (r : Reply A) : option string :=
  match r with
  | Answers _ => None
  | Fails message => Some message
  end.

(** Whether the relay reports the bundle as mined, when it answers. *)
Definition minedOf (r : Reply RelayStats) : option bool :=
  match r with
  | Answers s => Some (isMined s)
  | Fails _ => None
  end.

(** The external calls, as they are recorded in the trace of a run, with
    what matters of their answer: the failure of a signature or a
    submission, the status a poll reports. *)
Inductive Event :=
| EvGetBlockNumber
| EvEstimateGas
| EvGetTransactionCount
| EvSignBundle (failure : option string)
| EvSendBundle (target : Z) (failure : option string)
| EvGetBundleStats (block : Z) (mined : option bool)
| EvGetBlock (block : Z)
| EvSleep (ms : Z).

(** The inclusion polls of a trace: the block asked about and the
    status reported. *)
Definition pollOf (e : Event) : option (Z * option bool) :=
  match e with
  | EvGetBundleStats b m => Some (b, m)
  | _ => None
  end.

Definition polls (evs : list Event) : list (Z * option bool) :=
  omap pollOf evs.

(** The delays of a trace. *)
Definition sleepOf (e : Event) : option Z :=
  match e with
  | EvSleep ms => Some ms
  | _ => None
  end.

Definition sleeps (evs : list Event) : list Z :=
  omap sleepOf evs.

(** The failed signatures and submissions of a trace. *)
Definition rejectionOf (e : Event) : option string :=
  match e with
  | EvSignBundle (Some message) => Some message
  | EvSendBundle _ (Some message) => Some message
  | _ => None
  end.

Definition rejections (evs : list Event) : list string :=
  omap rejectionOf evs.

(** JavaScript truthiness of a string-or-null field. *)
Definition truthy (s : option string) : bool :=
  match s with
  | Some EmptyString => false
  | Some _ => true
  | None => false
  end.

(** Truthiness of a number-or-undefined field. *)
Definition truthyNum (n : option Z) : bool :=
  match n with
  | Some z => negb (z =? 0)%Z
  | None => false
  end.

Definition notIncludedText : string := "Bundle not included within wait period".

(** The three shapes of a result. *)
Definition notIncluded (hash : option string) : ExecResult :=
  {| success := false; error := Some notIncludedText;
     bundleHash := hash; txHash := None; blockNumber := None |}.

Definition failedWith (message : string) (hash : option string) : ExecResult :=
  {| success := false; error := Some message;
     bundleHash := hash; txHash := None; blockNumber := None |}.

Definition includedAt (hash tx : option string) (block : Z) : ExecResult :=
  {| success := true; error := None;
     bundleHash := hash; txHash := tx; blockNumber := Some block |}.

(** [k] polls that report the bundle as not mined, from block [from] on. *)
Definition pendingPolls (from : Z) (k : nat) : list (Z * option bool) :=
  map (fun j => ((from + Z.of_nat j)%Z, Some false)) (seq 0 k).

(** The provider and the relay behind [this.flashbotsProvider]: a world
    that every call may advance. [dateNow] reads the clock, [sleep] is
    the delay of [setTimeout]. *)
Record Relay (World : Type) := {
  getBlockNumber : World -> Reply Z * World;
  providerEstimateGas : Tx -> World -> Reply Z * World;
  getTransactionCount : string -> World -> Reply Z * World;
  signBundle : list Tx -> World -> Reply (list string) * World;
  sendBundle : list string -> Z -> World -> Reply (option string) * World;
  getBundleStats : option string -> Z -> World -> Reply RelayStats * World;
  getBlock : Z -> World -> Reply (option (list (option string))) * World;
  dateNow : World -> Z;
  sleep : Z -> World -> World;
  walletAddress : string
}.
Arguments getBlockNumber {World} r w.
Arguments providerEstimateGas {World} r tx w.
Arguments getTransactionCount {World} r address w.
Arguments signBundle {World} r bundle w.
Arguments sendBundle {World} r signed target w.
Arguments getBundleStats {World} r hash block w.
Arguments getBlock {World} r block w.
Arguments dateNow {World} r w.
Arguments sleep {World} r ms w.
Arguments walletAddress {World} r.

Section Relay.

Variable World : Type.
Variable relay : Relay World.

(** The state of a run: the instance's counters, the world, and the
    trace of external calls made so far (most recent last). *)
Record St := {
  stats : BundleStats;
  world : World;
  trace : list Event
}.

Definition M (A : Type) : Type := St -> Outcome A * St.

Definition ret {A} (a : A) : M A := fun st => (Returned a, st).

Definition throw {A} (message : string) : M A := fun st => (Threw message, st).

Definition outOfFuel {A} : M A := fun st => (OutOfFuel, st).

Definition bind {A B} (m : M A) (k : A -> M B) : M B :=
  fun st =>
    match m st with
    | (Returned a, st') => k a st'
    | (Threw message, st') => (Threw message, st')
    | (OutOfFuel, st') => (OutOfFuel, st')
    end.

(** [try { m } catch (error) { h error.message }]. *)
Definition tryCatch {A} (m : M A) (h : string -> M A) : M A :=
  fun st =>
    match m st with
    | (Threw message, st') => h message st'
    | other => other
    end.

(** An awaited external call; [ev] is its entry in the trace. *)
Definition call {A} (ev : Reply A -> Event) (f : World -> Reply A * World) : M A :=
  fun st =>
    let '(r, w) := f (world st) in
    let st' := {| stats := stats st; world := w; trace := trace st ++ [ev r] |} in
    match r with
    | Answers a => (Returned a, st')
    | Fails message => (Threw message, st')
    end.

Definition readClock : M Z := fun st => (Returned (dateNow relay (world st)), st).

Definition setTimeout (ms : Z) : M unit :=
  fun st =>
    (Returned tt,
     {| stats := stats st; world := sleep relay ms (world st);
        trace := trace st ++ [EvSleep ms] |}).

Definition updateStats (f : BundleStats -> BundleStats) : M unit :=
  fun st =>
    (Returned tt,
     {| stats := f (stats st); world := world st; trace := trace st |}).

Notation "'do' x <- m ; k" := (bind m (fun x => k))
  (at level 10, x name, m at level 100, k at level 200).

(** [estimateGas]: the provider's estimate plus 20%, or 300000. *)
Definition estimateGas (tx : Tx) : M Z :=
  tryCatch
    (do gasEstimate <- call (fun _ => EvEstimateGas) (providerEstimateGas relay tx);
     ret (Ethers.mulDiv gasEstimate 120 100))
    (fun _ => ret 300000%Z).

Definition withGasLimit (tx : Tx) (g : Z) : Tx := {|
  txFrom := txFrom tx; txTo := txTo tx; txData := txData tx;
  gasLimit := Some g; gasPrice := gasPrice tx; txType := txType tx;
  maxFeePerGas := maxFeePerGas tx;
  maxPriorityFeePerGas := maxPriorityFeePerGas tx; nonce := nonce tx |}.

Definition withZeroFees (tx : Tx) : Tx := {|
  txFrom := txFrom tx; txTo := txTo tx; txData := txData tx;
  gasLimit := gasLimit tx; gasPrice := Some 0%Z; txType := Some 2%Z;
  maxFeePerGas := Some 0%Z;
  maxPriorityFeePerGas := Some 0%Z; nonce := nonce tx |}.

Definition withNonce (tx : Tx) (n : Z) : Tx := {|
  txFrom := txFrom tx; txTo := txTo tx; txData := txData tx;
  gasLimit := gasLimit tx; gasPrice := gasPrice tx; txType := txType tx;
  maxFeePerGas := maxFeePerGas tx;
  maxPriorityFeePerGas := maxPriorityFeePerGas tx; nonce := Some n |}.

(** The body of the loop of [prepareBundleTransactions] for one
    transaction: the prepared transaction, or nothing when a step
    throws. A [gasLimit], when present, is a BigNumber, hence truthy. *)
Definition prepareOne (tx : Tx) : M (list Tx) :=
  tryCatch
    (do tx1 <- match gasLimit tx with
               | Some _ => ret tx
               | None => do g <- estimateGas tx; ret (withGasLimit tx g)
               end;
     let tx2 := withZeroFees tx1 in
     do tx3 <- if truthyNum (nonce tx2) then ret tx2
               else
                 do n <- call (fun _ => EvGetTransactionCount)
                           (getTransactionCount relay
                              (match txFrom tx2 with
                               | Some (String a s) => String a s
                               | _ => walletAddress relay
                               end));
                 ret (withNonce tx2 n);
     ret [tx3])
    (fun _ => ret []).

Fixpoint prepareBundleTransactions (txs : list Tx) : M (list Tx) :=
  match txs with
  | [] => ret []
  | tx :: rest =>
      do prepared <- prepareOne tx;
      do others <- prepareBundleTransactions rest;
      ret (prepared ++ others)
  end.

Definition submitBundle (bundle : list Tx) (targetBlockNumber : Z)
  : M BundleResponse :=
  tryCatch
    (do signedBundle <- call (fun r => EvSignBundle (failureOf r)) (signBundle relay bundle);
     do hash <- call (fun r => EvSendBundle targetBlockNumber (failureOf r))
                  (sendBundle relay signedBundle targetBlockNumber);
     ret {| respBundleHash := hash; respError := None |})
    (fun message =>
       ret {| respBundleHash := None; respError := Some message |}).

(** The rounds of [checkBlock] inside [waitForBlock]; [fuel] bounds
    their number. *)
Fixpoint checkBlock (fuel : nat) (blockNumber startTime timeout : Z) : M Z :=
  match fuel with
  | O => outOfFuel
  | S fuel' =>
      do currentBlock <- call (fun _ => EvGetBlockNumber) (getBlockNumber relay);
      if (blockNumber <=? currentBlock)%Z then ret currentBlock
      else
        do now <- readClock;
        if (timeout <? now - startTime)%Z
        then throw ("Timeout waiting for block " +:+ pretty blockNumber)
        else
          do _ <- setTimeout 1000;
          checkBlock fuel' blockNumber startTime timeout
  end.

Definition waitForBlock (fuel : nat) (blockNumber : Z) : M Z :=
  do startTime <- readClock;
  checkBlock fuel blockNumber startTime 30000.

(** The first transaction of the block that is an object with a
    truthy [hash]. *)
Fixpoint firstHash (txs : list (option string)) : option string :=
  match txs with
  | [] => None
  | h :: rest => if truthy h then h else firstHash rest
  end.

Definition getTransactionHashFromBundle (hash : option string) (blockNo : Z)
  : M (option string) :=
  tryCatch
    (do block <- call (fun _ => EvGetBlock blockNo) (getBlock relay blockNo);
     ret (match block with
          | Some txs => firstHash txs
          | None => None
          end))
    (fun _ => ret None).

Definition bumpIncluded (b : BundleStats) : BundleStats :=
  {| submitted := submitted b; included := S (included b);
     failed := failed b; totalGasUsed := totalGasUsed b |}.

Definition bumpSubmitted (b : BundleStats) : BundleStats :=
  {| submitted := S (submitted b); included := included b;
     failed := failed b; totalGasUsed := totalGasUsed b |}.

Definition bumpFailed (b : BundleStats) : BundleStats :=
  {| submitted := submitted b; included := included b;
     failed := S (failed b); totalGasUsed := totalGasUsed b |}.

(** The [for] loop of [waitForBundleInclusion]: [i] is the loop
    index, [remaining] is [maxWaitBlocks - i]. *)
Fixpoint pollInclusion (fuel : nat) (resp : BundleResponse)
    (targetBlockNumber i : Z) (remaining : nat) : M ExecResult :=
  match remaining with
  | O =>
      ret {| success := false;
             error := Some notIncludedText;
             bundleHash := respBundleHash resp;
             txHash := None;
             blockNumber := None |}
  | S remaining' =>
      let currentBlock := (targetBlockNumber + i)%Z in
      do _ <- waitForBlock fuel currentBlock;
      do bundleStats <- call (fun r => EvGetBundleStats currentBlock (minedOf r))
                          (getBundleStats relay (respBundleHash resp) currentBlock);
      if isMined bundleStats then
        do _ <- updateStats bumpIncluded;
        do hash <- getTransactionHashFromBundle (respBundleHash resp) currentBlock;
        ret {| success := true;
               error := None;
               bundleHash := respBundleHash resp;
               txHash := hash;
               blockNumber := Some currentBlock |}
      else pollInclusion fuel resp targetBlockNumber (i + 1) remaining'
  end.

Definition waitForBundleInclusion (fuel : nat) (resp : BundleResponse)
    (targetBlockNumber : Z) (maxWaitBlocks : nat) : M ExecResult :=
  tryCatch
    (pollInclusion fuel resp targetBlockNumber 0 maxWaitBlocks)
    (fun message =>
       ret {| success := false;
              error := Some message;
              bundleHash := respBundleHash resp;
              txHash := None;
              blockNumber := None |}).

(** [executeBundle]; [waitForBundleInclusion] is called with its
    default of 3 blocks. *)
Definition executeBundle (fuel : nat) (transactions : list Tx)
    (targetBlockNumber : option Z) : M ExecResult :=
  tryCatch
    (do target <- if truthyNum targetBlockNumber
                  then ret (default 0%Z targetBlockNumber)
                  else
                    do currentBlock <- call (fun _ => EvGetBlockNumber) (getBlockNumber relay);
                    ret (currentBlock + 1)%Z;
     do bundle <- prepareBundleTransactions transactions;
     match bundle with
     | [] => throw "No valid transactions in bundle"
     | _ :: _ =>
         do bundleResponse <- submitBundle bundle target;
         match respError bundleResponse with
         | Some (String a s) =>
             throw ("Bundle submission failed: " +:+ String a s)
         | _ =>
             do _ <- updateStats bumpSubmitted;
             waitForBundleInclusion fuel bundleResponse target 3
         end
     end)
    (fun message =>
       do _ <- updateStats bumpFailed;
       ret {| success := false;
              error := Some message;
              bundleHash := None;
              txHash := None;
              blockNumber := None |}).

Definition start (w : World) : St :=
  {| stats := freshStats; world := w; trace := [] |}.

(** [emits m P]: from any state, [m] appends some events [evs] to the
    trace, and its outcome and [evs] satisfy [P]. *)
Definition emits {A} (m : M A) (P : Outcome A -> list Event -> Prop) : Prop :=
  forall st, exists evs,
    trace (m st).2 = trace st ++ evs /\ P (m st).1 evs.

(** Events without a poll, a rejection or a delay. *)
Definition calm (evs : list Event) : Prop :=
  polls evs = [] /\ rejections evs = [] /\ sleeps evs = [].

(** A computation that always returns and stays calm. *)
Definition returnsCalmly {A} (out : Outcome A) (evs : list Event) : Prop :=
  (exists a, out = Returned a) /\ calm evs.

(** A computation that ends within its fuel and stays calm. *)
Definition endsCalmly {A} (out : Outcome A) (evs : list Event) : Prop :=
  out <> OutOfFuel /\ calm evs.

(** A computation that neither polls nor submits. *)
Definition onlyWaits {A} (out : Outcome A) (evs : list Event) : Prop :=
  polls evs = [] /\ rejections evs = [].

(** What [submitBundle] emits: no poll and no delay; the response has
    no error and nothing was rejected, or it has the message of the
    rejection that ends the events. *)
Definition rejectedOrSent (out : Outcome BundleResponse) (evs : list Event) : Prop :=
  exists resp,
    out = Returned resp /\ polls evs = [] /\ sleeps evs = [] /\
    ((respError resp = None /\ rejections evs = []) \/
     (exists message pre ev,
         respError resp = Some message /\ respBundleHash resp = None /\
         evs = pre ++ [ev] /\ rejectionOf ev = Some message /\
         rejections pre = [])).

(** What the polling loop emits with [remaining] rounds left, the next
    block being [from]: [k] polls that report the bundle as not mined,
    followed by the end of the window, by a poll that reports it mined,
    by a wait or a poll that throws, or by the end of the fuel. *)
Definition polled (hash : option string) (from : Z) (remaining : nat)
    (out : Outcome ExecResult) (evs : list Event) : Prop :=
  rejections evs = [] /\
  exists k : nat,
    (k = remaining /\ out = Returned (notIncluded hash) /\
     polls evs = pendingPolls from k) \/
    (k < remaining /\
     (exists tx, out = Returned (includedAt hash tx (from + Z.of_nat k))) /\
     polls evs = pendingPolls from k ++ [((from + Z.of_nat k)%Z, Some true)]) \/
    (k < remaining /\ (exists message, out = Threw message) /\
     (polls evs = pendingPolls from k \/
      polls evs = pendingPolls from k ++ [((from + Z.of_nat k)%Z, None)])) \/
    (k < remaining /\ out = OutOfFuel /\ polls evs = pendingPolls from k).

(** What [waitForBundleInclusion] emits for a window of [window]
    blocks from [from]: as [polled], a throw being turned into a failed
    result that carries its message. *)
Definition waited (hash : option string) (from : Z) (window : nat)
    (out : Outcome ExecResult) (evs : list Event) : Prop :=
  rejections evs = [] /\
  exists k : nat,
    (k = window /\ out = Returned (notIncluded hash) /\
     polls evs = pendingPolls from k) \/
    (k < window /\
     (exists tx, out = Returned (includedAt hash tx (from + Z.of_nat k))) /\
     polls evs = pendingPolls from k ++ [((from + Z.of_nat k)%Z, Some true)]) \/
    (k < window /\ (exists message, out = Returned (failedWith message hash)) /\
     (polls evs = pendingPolls from k \/
      polls evs = pendingPolls from k ++ [((from + Z.of_nat k)%Z, None)])) \/
    (k < window /\ out = OutOfFuel /\ polls evs = pendingPolls from k).

(** What the body of the [try] of [executeBundle] emits once the target
    block is known: a throw after calm events; or a throw because a
    signature or a submission was rejected with a message, the
    rejection being the last event; or an accepted bundle followed by
    the wait for its inclusion. *)
Definition attempted (target : Z)
    (out : Outcome ExecResult) (evs : list Event) : Prop :=
  (exists message, out = Threw message /\ calm evs) \/
  (exists rejection pre ev,
      rejection <> EmptyString /\
      out = Threw ("Bundle submission failed: " +:+ rejection) /\
      evs = pre ++ [ev] /\ rejectionOf ev = Some rejection /\
      rejections pre = [] /\ polls evs = [] /\ sleeps evs = []) \/
  (Forall (fun rejection => rejection = EmptyString) (rejections evs) /\
   exists hash pre rest,
     evs = pre ++ rest /\ polls pre = [] /\ sleeps pre = [] /\
     waited hash target 3 out rest).

(** What [executeBundle] emits. Either it fails before the bundle is
    accepted: no poll, no delay, and, when a signature or a submission
    was rejected with a message, that rejection ends the events and its
    message is in the error. Or the bundle is accepted (a rejection with
    an empty message counts as accepted) and the window is waited for. *)
Definition executed (targetBlockNumber : option Z)
    (out : Outcome ExecResult) (evs : list Event) : Prop :=
  exists target : Z,
    (truthyNum targetBlockNumber = true -> targetBlockNumber = Some target) /\
    ((exists message,
         out = Returned (failedWith message None) /\
         polls evs = [] /\ sleeps evs = [] /\
         (rejections evs = [] \/
          exists rejection pre ev,
            rejection <> EmptyString /\
            evs = pre ++ [ev] /\ rejectionOf ev = Some rejection /\
            rejections pre = [] /\
            message = "Bundle submission failed: " +:+ rejection)) \/
     (Forall (fun rejection => rejection = EmptyString) (rejections evs) /\
      exists hash pre rest,
        evs = pre ++ rest /\ polls pre = [] /\ sleeps pre = [] /\
        waited hash target 3 out rest)).

(** [yields m P]: from any state, the counters before, the outcome of
    [m] and the counters after satisfy [P]. *)
Definition yields {A} (m : M A)
    (P : BundleStats -> Outcome A -> BundleStats -> Prop) : Prop :=
  forall st, P (stats st) (m st).1 (stats (m st).2).

(** A computation that leaves the counters alone. *)
Definition keepsStats {A} (m : M A) : Prop :=
  yields m (fun before _ after => after = before).

(** What [prepareBundleTransactions] leaves of a transaction: the fees
    are zero, the type is 2, and a gas limit and a nonce are set. *)
Definition prepared (tx : Tx) : Prop :=
  gasPrice tx = Some 0%Z /\ txType tx = Some 2%Z /\
  maxFeePerGas tx = Some 0%Z /\ maxPriorityFeePerGas tx = Some 0%Z /\
  gasLimit tx <> None /\ nonce tx <> None.


(** How the polling loop moves the counters: not at all unless it
    returns a success, which counts as one more included bundle. *)
Definition pollAccounted (before : BundleStats) (out : Outcome ExecResult)
    (after : BundleStats) : Prop :=
  (after = before /\ forall r, out = Returned r -> success r = false) \/
  (exists r, out = Returned r /\ success r = true /\ after = bumpIncluded before).

(** How a run of [executeBundle] moves the counters. *)
Definition accounted (before : BundleStats) (out : Outcome ExecResult)
    (after : BundleStats) : Prop :=
  (exists message,
      out = Returned (failedWith message None) /\ after = bumpFailed before) \/
  (exists r,
      out = Returned r /\ success r = false /\ after = bumpSubmitted before) \/
  (exists r,
      out = Returned r /\ success r = true /\
      after = bumpIncluded (bumpSubmitted before)) \/
  (out = OutOfFuel /\ after = bumpSubmitted before).

(** [calculateMinerPayment]: a tenth of the expected profit, and 0.01
    ether at least; [gasUsed] is not read. *)
Definition calculateMinerPayment (expectedProfit gasUsed : Z) : Z :=
  let minPayment := Ethers.parseMilliEther 10 in
  let percentagePayment := Ethers.mulDiv expectedProfit 10 100 in
  if (minPayment <? percentagePayment)%Z then percentagePayment else minPayment.

(** [total m]: from any state, [m] ends within its fuel. *)
Definition total {A} (m : M A) : Prop :=
  forall st, (m st).1 <> OutOfFuel.

End Relay.

Arguments stats {World} s.
Arguments world {World} s.
Arguments trace {World} s.
Arguments ret {World A} a st.
Arguments throw {World A} message st.
Arguments outOfFuel {World A} st.
Arguments bind {World A B} m k st.
Arguments tryCatch {World A} m h st.
Arguments call {World A} ev f st.
Arguments readClock {World} relay st.
Arguments setTimeout {World} relay ms st.
Arguments updateStats {World} f st.
Arguments estimateGas {World} relay tx st.
Arguments prepareOne {World} relay tx st.
Arguments prepareBundleTransactions {World} relay txs st.
Arguments submitBundle {World} relay bundle targetBlockNumber st.
Arguments checkBlock {World} relay fuel blockNumber startTime timeout st.
Arguments waitForBlock {World} relay fuel blockNumber st.
Arguments getTransactionHashFromBundle {World} relay hash blockNo st.
Arguments pollInclusion {World} relay fuel resp targetBlockNumber i remaining st.
Arguments waitForBundleInclusion {World} relay fuel resp targetBlockNumber maxWaitBlocks st.
Arguments executeBundle {World} relay fuel transactions targetBlockNumber st.
Arguments start {World} w.
Arguments emits {World A} m P.
Arguments yields {World A} m P.
Arguments keepsStats {World A} m.
Arguments total {World A} m.

End FlashbotsExecutor.

(** Two sample relays. The world is the clock, in milliseconds: a block
    is mined every twelve seconds and every call takes a tenth of a
    second. *)
Module RelaySamples.

Import FlashbotsExecutor.

(** A relay that accepts the bundle and never sees it mined. *)
Definition pending : Relay Z := {|
  getBlockNumber := fun w => (Answers (w / 12000)%Z, (w + 100)%Z);
  providerEstimateGas := fun _ w => (Answers 200000%Z, (w + 100)%Z);
  getTransactionCount := fun _ w => (Answers 7%Z, (w + 100)%Z);
  signBundle := fun _ w => (Answers ["0x5160ed"], (w + 100)%Z);
  sendBundle := fun _ _ w => (Answers (Some "0xb1"), (w + 100)%Z);
  getBundleStats := fun _ _ w =>
    (Answers {| isSimulated := true; isMined := false |}, (w + 100)%Z);
  getBlock := fun _ w => (Answers (Some []), (w + 100)%Z);
  dateNow := fun w => w;
  sleep := fun ms w => (w + ms)%Z;
  walletAddress := "0x3a11e7"
|}.

(** The same relay in front of a chain that has stopped at block 0. *)
Definition stalled : Relay Z := {|
  getBlockNumber := fun w => (Answers 0%Z, (w + 100)%Z);
  providerEstimateGas := providerEstimateGas pending;
  getTransactionCount := getTransactionCount pending;
  signBundle := signBundle pending;
  sendBundle := sendBundle pending;
  getBundleStats := getBundleStats pending;
  getBlock := getBlock pending;
  dateNow := dateNow pending;
  sleep := sleep pending;
  walletAddress := walletAddress pending
|}.

(** A relay that rejects every submission. *)
Definition rejecting : Relay Z := {|
  getBlockNumber := getBlockNumber pending;
  providerEstimateGas := providerEstimateGas pending;
  getTransactionCount := getTransactionCount pending;
  signBundle := signBundle pending;
  sendBundle := fun _ _ w => (Fails "relay rejected the bundle", (w + 100)%Z);
  getBundleStats := getBundleStats pending;
  getBlock := getBlock pending;
  dateNow := dateNow pending;
  sleep := sleep pending;
  walletAddress := walletAddress pending
|}.

Definition transaction : Tx := {|
  txFrom := None;
  txTo := Some "0xc0417ac7";
  txData := "0x";
  gasLimit := None;
  gasPrice := None;
  txType := None;
  maxFeePerGas := None;
  maxPriorityFeePerGas := None;
  nonce := None
|}.

End RelaySamples.

(** *** PriceMonitor (price-monitor.js) *)

Module PriceMonitor.

(** An entry of a token's history. Prices are JavaScript numbers; the
    volatility takes a square root, so they are modelled as reals. *)
Record PricePoint := {
  price : R;
  observedAt : Z
}.

(** [array.slice(start)] for an integer [start]: a negative [start]
    counts from the end, and [-0] is [0]. *)
Definition slice {A} (start : Z) (l : list A) : list A :=
  let len := Z.of_nat (length l) in
  let k := if (start <? 0)%Z then Z.max (len + start) 0 else Z.min start len in
  drop (Z.to_nat k) l.

(** [getPriceHistory]: [history.slice(-limit)], or the empty array for
    an unknown symbol. *)
Definition getPriceHistory (priceHistory : gmap string (list PricePoint))
    (tokenSymbol : string) (limit : Z) : list PricePoint :=
  match priceHistory !! tokenSymbol with
  | None => []
  | Some history => slice (- limit) history
  end.

(** [addToHistory]: append, then keep the last 1000 entries. *)
Definition addToHistory (priceHistory : gmap string (list PricePoint))
    (tokenSymbol : string) (p : R) (now : Z) : gmap string (list PricePoint) :=
  let history := default [] (priceHistory !! tokenSymbol) in
  let history := history ++ [ {| price := p; observedAt := now |} ] in
  let history :=
    if (1000 <? length history)%nat
    then drop (length history - 1000) history else history in
  <[tokenSymbol := history]> priceHistory.

(** The [for] loop of [calculateVolatility] that fills [returns]. *)
Fixpoint returnsOf (prices : list R) : list R :=
  match prices with
  | [] => []
  | p0 :: rest =>
      match rest with
      | [] => []
      | p1 :: _ => ((p1 - p0) / p0)%R :: returnsOf rest
      end
  end.

(** [calculateVolatility(tokenSymbol, periods)]. *)
Definition calculateVolatility (priceHistory : gmap string (list PricePoint))
    (tokenSymbol : string) (periods : Z) : R :=
  let history := getPriceHistory priceHistory tokenSymbol periods in
  if (length history <? 2)%nat then 0%R
  else
    let prices := map price history in
    let returns := returnsOf prices in
    if (length returns =? 0)%nat then 0%R
    else
      let n := INR (length returns) in
      let mean := (fold_left (fun sum r => sum + r) returns 0 / n)%R in
      let variance :=
        (fold_left (fun sum r => sum + (r - mean) ^ 2) returns 0 / n)%R in
      sqrt variance.

Definition defaultPeriods : Z := 20.

End PriceMonitor.

(** The reading of the specification's words for the volatility: the
    population standard deviation of the successive fractional returns
    of a series of samples. It is compared below with the code's
    [PriceMonitor.calculateVolatility]. *)
Module VolatilitySpec.

Fixpoint total (l : list R) : R :=
  match l with
  | [] => 0%R
  | x :: l' => (x + total l')%R
  end.

Definition average (l : list R) : R := (total l / INR (length l))%R.

Definition standardDeviation (l : list R) : R :=
  sqrt (average (map (fun x => Rsqr (x - average l)) l)).

(** The return between the samples [i-1] and [i]. *)
Definition fractionalReturn (samples : list R) (i : nat) : R :=
  let previous := nth (i - 1) samples 0%R in
  ((nth i samples 0%R - previous) / previous)%R.

Definition fractionalReturns (samples : list R) : list R :=
  map (fractionalReturn samples) (seq 1 (length samples - 1)).

(** The last [window] samples of a series. *)
Definition lastSamples {A} (window : nat) (l : list A) : list A :=
  drop (length l - window) l.

Definition volatility (samples : list R) : R :=
  if (length samples <? 2)%nat then 0%R
  else standardDeviation (fractionalReturns samples).

End VolatilitySpec.

(** *** The scanning loop of LimitlessFlashBotExecutor (index.js) *)

Module Executor.

Import ArbitrageCalculator.

Definition supportedPairs : list Pair :=
  [ {| pairToken0 := "WETH"; pairToken1 := "DAI" |};
    {| pairToken0 := "WETH"; pairToken1 := "USDC" |};
    {| pairToken0 := "WETH"; pairToken1 := "USDT" |};
    {| pairToken0 := "DAI"; pairToken1 := "USDC" |};
    {| pairToken0 := "DAI"; pairToken1 := "USDT" |};
    {| pairToken0 := "USDC"; pairToken1 := "USDT" |} ].

(** [quantumSignal.confidence > 0.7]; a confidence that is not a
    number compares false. *)
Definition confident (sig : QuantumSignalProcessor.Signal) : bool :=
  match QuantumSignalProcessor.confidence sig with
  | Some c => if Qlt_le_dec 0.7 c then true else false
  | None => false
  end.

(** The test that guards [executeArbitrage] in
    [scanForArbitrageOpportunities]. *)
Definition shouldExecute (a : RiskManager.Assessment)
    (sig : QuantumSignalProcessor.Signal) : bool :=
  RiskManager.approved a && confident sig.

(** What one round of the loop over the pairs finds: no opportunity,
    or an opportunity with its signal and its risk assessment. *)
Inductive ScanOutcome :=
| NoOpportunity
| Scored (o : Opportunity) (sig : QuantumSignalProcessor.Signal)
    (a : RiskManager.Assessment).

(** [opportunity && opportunity.profitability > 0] and then the guard. *)
Definition executes (out : ScanOutcome) : option Opportunity :=
  match out with
  | NoOpportunity => None
  | Scored o sig a =>
      if (if Qlt_le_dec 0 (profitability o) then true else false)
         && shouldExecute a sig
      then Some o else None
  end.

(** A scan cycle is one run of [scanForArbitrageOpportunities]: the
    pairs it still has to visit, the first being the current one, and
    whether it is inside the awaited [executeArbitrage]. *)
Inductive Phase :=
| Scanning
| Executing (inFlightAsset : string).

Record Cycle := {
  pending : list Pair;
  phase : Phase
}.

(** The cycles started so far. [setInterval] starts a cycle every two
    seconds and does not wait for the previous one: the callback only
    tests [isRunning]. *)
Record System := {
  isRunning : bool;
  cycles : list Cycle
}.

Definition initial : System := {| isRunning := true; cycles := [] |}.

(** The moves of the event loop: the timer fires, cycle [i] finishes
    the scan of its current pair with a given outcome, or the
    execution cycle [i] awaits completes. *)
Inductive Move :=
| Tick
| Scan (i : nat) (out : ScanOutcome)
| Finish (i : nat).

Definition setCycle (i : nat) (c : Cycle) (s : System) : System :=
  {| isRunning := isRunning s; cycles := <[i := c]> (cycles s) |}.

(** One move; [None] when the move is not enabled. *)
Definition step (s : System) (m : Move) : option System :=
  match m with
  | Tick =>
      if isRunning s then
        Some {| isRunning := isRunning s;
                cycles := cycles s ++ [ {| pending := supportedPairs; phase := Scanning |} ] |}
      else Some s
  | Scan i out =>
      match cycles s !! i with
      | Some {| pending := p :: ps; phase := Scanning |} =>
          match executes out with
          | Some o => Some (setCycle i {| pending := p :: ps; phase := Executing (asset o) |} s)
          | None => Some (setCycle i {| pending := ps; phase := Scanning |} s)
          end
      | _ => None
      end
  | Finish i =>
      match cycles s !! i with
      | Some {| pending := p :: ps; phase := Executing _ |} =>
          Some (setCycle i {| pending := ps; phase := Scanning |} s)
      | _ => None
      end
  end.

Fixpoint run (s : System) (ms : list Move) : option System :=
  match ms with
  | [] => Some s
  | m :: ms' =>
      match step s m with
      | Some s' => run s' ms'
      | None => None
      end
  end.

Definition executingAsset (a : string) (c : Cycle) : bool :=
  match phase c with
  | Executing b => if decide (a = b) then true else false
  | Scanning => false
  end.

(** The number of executions in flight for an asset. *)
Definition inFlight (a : string) (s : System) : nat :=
  length (List.filter (executingAsset a) (cycles s)).

Definition ticks (ms : list Move) : nat :=
  length (List.filter (fun m => match m with Tick => true | _ => false end) ms).

End Executor.

(** Readings of a run of calls on a [RiskManager], used to state what
    the instance has counted. *)
Module RunSpec.

Import RiskManager.

(** The results recorded by a run, oldest first. *)
Fixpoint recorded (cs : list Call) : list bool :=
  match cs with
  | [] => []
  | Assess _ _ :: cs' => recorded cs'
  | Record _ r _ :: cs' => success r :: recorded cs'
  end.

(** The number of failures at the head of a list of results. *)
Fixpoint leadingFailures (results : list bool) : nat :=
  match results with
  | false :: rest => S (leadingFailures rest)
  | _ => 0
  end.

(** The number of failures at the end of a list of results: the
    failures since the last success. *)
Definition trailingFailures (results : list bool) : nat :=
  leadingFailures (rev results).

(** The number of successes of a list of results. *)
Definition successes (results : list bool) : nat :=
  length (List.filter (fun r => r) results).

(** Some failure of the list ends a streak of [limit] failures or more. *)
Definition streakReached (limit : nat) (results : list bool) : Prop :=
  exists n,
    (n <= length results)%nat /\
    last (take n results) = Some false /\
    (limit <= trailingFailures (take n results))%nat.

(** The results kept in the trade history. *)
Definition historyResults (rm : RiskManager.t) : list bool :=
  map (fun t => success (tradeResult t)) (tradeHistory rm).

End RunSpec.

(** ** Part II: the properties *)

(** *** RiskManager: the failure counter and the pause *)

Section RiskManagerFacts.

Import RiskManager.

Lemma includes_pause_text (digits : string) :
  includes "consecutive failures"
    ("Too many consecutive failures: " +:+ digits) = true.
Proof. vm_compute. reflexivity. Qed.

Lemma recordTradeResult_riskParams o r now rm :
  riskParams (recordTradeResult o r now rm) = riskParams rm.
Proof.
  unfold recordTradeResult, pauseSystem.
  destruct (success r); cbn; [reflexivity|].
  destruct (_ <=? _)%nat; reflexivity.
Qed.

Lemma recordTradeResult_failure_count o r now rm :
  success r = false ->
  consecutiveFailures (riskState (recordTradeResult o r now rm))
  = S (consecutiveFailures (riskState rm)).
Proof.
  intros Hr. unfold recordTradeResult, pauseSystem. rewrite Hr. cbn.
  destruct (_ <=? _)%nat; reflexivity.
Qed.

Lemma recordTradeResult_failure_pauses o r now rm :
  success r = false ->
  (maxConsecutiveFailures (riskParams rm) <= S (consecutiveFailures (riskState rm)))%nat ->
  isPaused (riskState (recordTradeResult o r now rm)) = true /\
  pauseReason (riskState (recordTradeResult o r now rm))
  = Some ("Too many consecutive failures: "
          +:+ pretty (S (consecutiveFailures (riskState rm)))).
Proof.
  intros Hr Hmax. unfold recordTradeResult. rewrite Hr. cbn.
  apply Nat.leb_le in Hmax. rewrite Hmax. cbn. split; reflexivity.
Qed.

Lemma recordTradeResult_keeps_pause o r now rm :
  isPaused (riskState rm) = true ->
  isPaused (riskState (recordTradeResult o r now rm)) = true.
Proof.
  intros Hp. unfold recordTradeResult, pauseSystem.
  destruct (success r); cbn; [exact Hp|].
  destruct (_ <=? _)%nat; cbn; [reflexivity | exact Hp].
Qed.

Lemma resetDailyCountersIfNeeded_isPaused now rm :
  isPaused (riskState (resetDailyCountersIfNeeded now rm)) = isPaused (riskState rm).
Proof.
  unfold resetDailyCountersIfNeeded. destruct (_ <=? _)%Z; reflexivity.
Qed.

Lemma assessRisk_state o now rm :
  (assessRisk o now rm).2 = resetDailyCountersIfNeeded now rm.
Proof.
  unfold assessRisk. destruct (isPaused _); reflexivity.
Qed.

Lemma assessRisk_paused o now rm :
  isPaused (riskState rm) = true ->
  approved (assessRisk o now rm).1 = false /\
  isPaused (riskState (assessRisk o now rm).2) = true.
Proof.
  intros Hp. unfold assessRisk.
  rewrite resetDailyCountersIfNeeded_isPaused, Hp. cbn.
  rewrite resetDailyCountersIfNeeded_isPaused. auto.
Qed.

Lemma runCalls_app cs1 cs2 rm :
  runCalls (cs1 ++ cs2) rm
  = ((runCalls cs1 rm).1 ++ (runCalls cs2 (runCalls cs1 rm).2).1,
     (runCalls cs2 (runCalls cs1 rm).2).2).
Proof.
  revert rm. induction cs1 as [|c cs1 IH]; intros rm; cbn.
  - destruct (runCalls cs2 rm); reflexivity.
  - destruct c as [o now|o r now].
    + destruct (assessRisk o now rm) as [a rm1] eqn:Ha.
      rewrite IH.
      destruct (runCalls cs1 rm1) as [as1 rm2]. cbn.
      destruct (runCalls cs2 rm2); reflexivity.
    + apply IH.
Qed.

(** A run of failed records adds its length to the counter and leaves
    the parameters alone. *)
Lemma runCalls_failures fails rm :
  Forall failedRecord fails ->
  consecutiveFailures (riskState (runCalls fails rm).2)
  = (consecutiveFailures (riskState rm) + length fails)%nat /\
  riskParams (runCalls fails rm).2 = riskParams rm.
Proof.
  intros Hall. revert rm.
  induction Hall as [|c cs Hc _ IH]; intros rm; cbn.
  - split; [lia | reflexivity].
  - destruct c as [o now|o r now]; [destruct Hc|]. cbn in Hc.
    destruct (IH (recordTradeResult o r now rm)) as [IH1 IH2].
    rewrite IH1, IH2, recordTradeResult_failure_count, recordTradeResult_riskParams by exact Hc.
    split; [lia | reflexivity].
Qed.

(** While the instance is paused, every assessment is a denial and the
    instance stays paused, whatever is assessed or recorded. *)
Lemma runCalls_paused cs rm :
  isPaused (riskState rm) = true ->
  Forall (fun a => approved a = false) (runCalls cs rm).1 /\
  isPaused (riskState (runCalls cs rm).2) = true.
Proof.
  revert rm. induction cs as [|c cs IH]; intros rm Hp; cbn.
  - split; [constructor | exact Hp].
  - destruct c as [o now|o r now].
    + destruct (assessRisk_paused o now rm Hp) as [Hden Hp'].
      destruct (assessRisk o now rm) as [a rm1]. cbn in Hden, Hp'.
      destruct (IH rm1 Hp') as [IH1 IH2].
      destruct (runCalls cs rm1) as [as' rm2]. cbn in *.
      split; [constructor; assumption | assumption].
    + apply IH, recordTradeResult_keeps_pause, Hp.
Qed.

(** C1. Once as many consecutive failed outcomes as
    [maxConsecutiveFailures] (3 by default) have been recorded, the
    instance is paused, the pause reason contains the words
    "consecutive failures", and from then on every assessment is a
    denial, whatever is assessed or recorded, for as long as
    [resumeSystem] is not called; [resumeSystem] lifts the pause; and
    recording a successful outcome sets the failure counter to 0. *)
Theorem consecutive_failures_pause_until_resume
    (rm : RiskManager.t) (fails later : list Call) :
  Forall failedRecord fails ->
  (1 <= length fails)%nat ->
  (maxConsecutiveFailures (riskParams rm) <= length fails)%nat ->
  let paused := (runCalls fails rm).2 in
  let after := runCalls later paused in
  isPaused (riskState paused) = true /\
  (exists why, pauseReason (riskState paused) = Some why /\
               includes "consecutive failures" why = true) /\
  Forall (fun a => approved a = false) after.1 /\
  isPaused (riskState after.2) = true /\
  isPaused (riskState (resumeSystem after.2)) = false /\
  (forall o r now rm0,
      success r = true ->
      consecutiveFailures (riskState (recordTradeResult o r now rm0)) = 0%nat).
Proof.
  intros Hall Hone Hmax paused after.
  assert (Hp : isPaused (riskState paused) = true /\
               exists why, pauseReason (riskState paused) = Some why /\
                           includes "consecutive failures" why = true).
  { subst paused. clear after later.
    destruct fails as [|c0 fails0] using rev_ind; [cbn in Hone; lia|].
    clear IHfails0.
    apply Forall_app in Hall as [Hinit Hlast].
    apply Forall_cons in Hlast as [Hlast _].
    destruct c0 as [o now|o r now]; [destruct Hlast|]. cbn in Hlast.
    rewrite runCalls_app. cbn.
    destruct (runCalls_failures fails0 rm Hinit) as [Hcount Hparams].
    rewrite length_app in Hmax. cbn in Hmax.
    destruct (recordTradeResult_failure_pauses o r now (runCalls fails0 rm).2 Hlast)
      as [Hpaused Hwhy].
    { rewrite Hparams, Hcount. lia. }
    split; [exact Hpaused|].
    eexists. split; [exact Hwhy | apply includes_pause_text]. }
  destruct Hp as [Hpaused Hwhy].
  destruct (runCalls_paused later paused Hpaused) as [Hden Hstill].
  repeat split; try assumption.
  intros o r now rm0 Hr. unfold recordTradeResult. rewrite Hr. reflexivity.
Qed.

Lemma consecutive_failures_pause_sample :
  isPaused (riskState (runCalls Samples.threeFailures (create 0)).2) = true.
Proof.
  refine (proj1 (consecutive_failures_pause_until_resume
                   (create 0) Samples.threeFailures [] _ _ _)).
  - repeat constructor.
  - cbn. lia.
  - cbn. lia.
Defined.

(** C10. [resumeSystem] clears the pause and its reason and sets the
    failure counter to 0; every other field of the risk state, the
    parameters and the trade history are left as they were. After it,
    the consecutive-failures check passes again whenever the limit is
    positive: the count that caused an automatic pause is forgotten. *)
Theorem resumeSystem_frame (rm : RiskManager.t) :
  let before := riskState rm in
  let after := riskState (resumeSystem rm) in
  isPaused after = false /\
  pauseReason after = None /\
  consecutiveFailures after = 0%nat /\
  dailyLoss after = dailyLoss before /\
  dailyProfit after = dailyProfit before /\
  lastTradeTime after = lastTradeTime before /\
  totalTrades after = totalTrades before /\
  successfulTrades after = successfulTrades before /\
  lastResetTime after = lastResetTime before /\
  riskParams (resumeSystem rm) = riskParams rm /\
  tradeHistory (resumeSystem rm) = tradeHistory rm /\
  maxHistorySize (resumeSystem rm) = maxHistorySize rm /\
  passed (checkConsecutiveFailures (resumeSystem rm))
  = (0 <? maxConsecutiveFailures (riskParams rm))%nat.
Proof. cbn. repeat split; reflexivity. Qed.

(** *** RiskManager: the daily counters *)

(** The recorded outcome's profit goes to one counter or the other. *)
Lemma recordTradeResult_counters o r now rm :
  dailyLoss (riskState (recordTradeResult o r now rm))
  = (dailyLoss (riskState rm) + (if success r then 0 else estimatedProfit o))%Z /\
  dailyProfit (riskState (recordTradeResult o r now rm))
  = (dailyProfit (riskState rm) + (if success r then estimatedProfit o else 0))%Z /\
  lastResetTime (riskState (recordTradeResult o r now rm))
  = lastResetTime (riskState rm).
Proof.
  unfold recordTradeResult, pauseSystem.
  destruct (success r); cbn.
  - repeat split; lia.
  - destruct (_ <=? _)%nat; cbn; repeat split; lia.
Qed.

(** A day and more after the last reset, recording an outcome leaves
    the losses and profits of the elapsed window in the counters: here
    a loss and two profits of 0.002 ether each. *)
Lemma recordTradeResult_after_window_no_reset :
  let rm := (runCalls [Record Samples.opportunity Samples.failure 1000;
                       Record Samples.opportunity Samples.included 2000]
               (create 0)).2 in
  let now := (2 * oneDayMs)%Z in
  let rm' := recordTradeResult Samples.opportunity Samples.included now rm in
  (oneDayMs <= now - lastResetTime (riskState rm))%Z /\
  dailyLoss (riskState rm') = Ethers.parseMilliEther 2 /\
  dailyProfit (riskState rm') = Ethers.parseMilliEther 4 /\
  dailyLoss (riskState rm') <> 0%Z /\
  dailyProfit (riskState rm') <> 0%Z.
Proof. vm_compute. repeat split; discriminate. Qed.

(** C5, as the code has it. [assessRisk] sets both daily counters to
    zero, and the reset time to now, when a day or more has passed
    since the last reset, and leaves the three of them alone before
    that. [recordTradeResult] never resets: at any time it adds the
    outcome's profit to [dailyProfit] on success and to [dailyLoss] on
    failure, and keeps the reset time. *)
Theorem daily_counters_reset_by_assessRisk_only
    (rm : RiskManager.t) (o : Opportunity) (r : ExecResult) (now : Z) :
  let assessed := riskState (assessRisk o now rm).2 in
  let recorded := riskState (recordTradeResult o r now rm) in
  ((oneDayMs <= now - lastResetTime (riskState rm))%Z ->
   dailyLoss assessed = 0%Z /\ dailyProfit assessed = 0%Z /\
   lastResetTime assessed = now) /\
  ((now - lastResetTime (riskState rm) < oneDayMs)%Z ->
   dailyLoss assessed = dailyLoss (riskState rm) /\
   dailyProfit assessed = dailyProfit (riskState rm) /\
   lastResetTime assessed = lastResetTime (riskState rm)) /\
  dailyLoss recorded
  = (dailyLoss (riskState rm) + (if success r then 0 else estimatedProfit o))%Z /\
  dailyProfit recorded
  = (dailyProfit (riskState rm) + (if success r then estimatedProfit o else 0))%Z /\
  lastResetTime recorded = lastResetTime (riskState rm).
Proof.
  cbn zeta. rewrite assessRisk_state. unfold resetDailyCountersIfNeeded.
  split; [|split; [|apply recordTradeResult_counters]].
  - intros Hday. apply Z.leb_le in Hday. rewrite Hday. cbn. auto.
  - intros Hday. apply Z.leb_gt in Hday. rewrite Hday. auto.
Qed.

Lemma daily_counters_reset_sample :
  let rm := (runCalls [Record Samples.opportunity Samples.failure 1000]
               (create 0)).2 in
  dailyLoss (riskState rm) = Ethers.parseMilliEther 2 /\
  dailyLoss (riskState (assessRisk Samples.opportunity (2 * oneDayMs) rm).2) = 0%Z /\
  dailyLoss (riskState (assessRisk Samples.opportunity 5000 rm).2)
  = Ethers.parseMilliEther 2.
Proof.
  cbn zeta.
  pose proof (daily_counters_reset_by_assessRisk_only
                (runCalls [Record Samples.opportunity Samples.failure 1000]
                   (create 0)).2
                Samples.opportunity Samples.failure (2 * oneDayMs)) as Hlate.
  pose proof (daily_counters_reset_by_assessRisk_only
                (runCalls [Record Samples.opportunity Samples.failure 1000]
                   (create 0)).2
                Samples.opportunity Samples.failure 5000) as Hearly.
  cbn zeta in Hlate, Hearly.
  destruct Hlate as [Hlate _]. destruct Hearly as [_ [Hearly _]].
  split; [reflexivity|]. split.
  - apply Hlate. vm_compute. discriminate.
  - rewrite (proj1 (Hearly ltac:(vm_compute; reflexivity))). reflexivity.
Defined.

(** *** RiskManager: the risk score and the approval *)

Local Open Scope Q_scope.

Lemma fold_scoreStep (cs : list RiskCheck) (tw ws : Q) :
  (fold_left scoreStep cs (tw, ws)).1 == tw + RiskScoreSpec.totalWeight cs /\
  (fold_left scoreStep cs (tw, ws)).2
  == ws + RiskScoreSpec.totalWeight (RiskScoreSpec.failedChecks cs).
Proof.
  unfold RiskScoreSpec.failedChecks.
  revert tw ws. induction cs as [|c cs IH]; intros tw ws; cbn.
  - split; ring.
  - destruct (IH (tw + weight c) (ws + (if passed c then 0 else weight c)))
      as [IH1 IH2].
    unfold scoreStep at 2 4. cbn. rewrite IH1, IH2.
    split; [ring|].
    destruct (passed c); cbn; ring.
Qed.

Lemma failed_weight_bounds (cs : list RiskCheck) :
  Forall (fun c => (0 <= weight c)%Q) cs ->
  (0 <= RiskScoreSpec.totalWeight (RiskScoreSpec.failedChecks cs)
   <= RiskScoreSpec.totalWeight cs)%Q.
Proof.
  unfold RiskScoreSpec.failedChecks.
  induction 1 as [|c cs Hc _ IH]; cbn.
  - split; apply Qle_refl.
  - destruct (passed c); cbn; lra.
Qed.

Lemma failed_weight_all_passed (cs : list RiskCheck) :
  forallb passed cs = true ->
  RiskScoreSpec.totalWeight (RiskScoreSpec.failedChecks cs) == 0.
Proof.
  unfold RiskScoreSpec.failedChecks.
  induction cs as [|c cs IH]; cbn; [reflexivity|].
  intros H. apply andb_prop in H as [Hc Hcs]. rewrite Hc. cbn. auto.
Qed.

(** The code's score is the score of the specification whenever the
    weights add up to a positive number. *)
Lemma calculateRiskScore_spec (cs : list RiskCheck) :
  (0 < RiskScoreSpec.totalWeight cs)%Q ->
  calculateRiskScore cs == RiskScoreSpec.riskScore cs.
Proof.
  intros Hpos. unfold calculateRiskScore, RiskScoreSpec.riskScore.
  destruct (fold_scoreStep cs 0 0) as [H1 H2].
  destruct (fold_left scoreStep cs (0, 0)) as [tw ws]. cbn in H1, H2.
  rewrite Qplus_0_l in H1, H2.
  destruct (Qlt_le_dec 0 tw) as [_|Hle].
  - rewrite H1, H2. reflexivity.
  - rewrite H1 in Hle. lra.
Qed.

Lemma riskChecks_weights rm o now :
  RiskScoreSpec.totalWeight (riskChecks rm o now) == 1.55 /\
  Forall (fun c => (0 <= weight c)%Q) (riskChecks rm o now) /\
  length (riskChecks rm o now) = 10%nat.
Proof.
  split; [|split].
  - cbn. reflexivity.
  - unfold riskChecks. repeat constructor; cbn; discriminate.
  - reflexivity.
Qed.

Lemma calculateRiskScore_riskChecks rm o now :
  let cs := riskChecks rm o now in
  calculateRiskScore cs == RiskScoreSpec.riskScore cs /\
  0 <= calculateRiskScore cs <= 1 /\
  (forallb passed cs = true -> calculateRiskScore cs == 0).
Proof.
  intros cs.
  destruct (riskChecks_weights rm o now) as [Hsum [Hnn _]]. fold cs in Hsum, Hnn.
  assert (Hspec : calculateRiskScore cs == RiskScoreSpec.riskScore cs).
  { apply calculateRiskScore_spec. rewrite Hsum. reflexivity. }
  pose proof (failed_weight_bounds cs Hnn) as [Hlo Hhi].
  split; [exact Hspec|].
  rewrite Hspec. unfold RiskScoreSpec.riskScore. rewrite Hsum in *.
  split; [split|].
  - apply Qle_shift_div_l; [reflexivity | lra].
  - apply Qle_shift_div_r; [reflexivity | lra].
  - intros Hall. rewrite (failed_weight_all_passed cs Hall). reflexivity.
Qed.

(** The weights of the ten checks add up to 1.55, not to 1, and an
    opportunity is approved without any look at a signal: the sample
    opportunity is approved on a fresh instance although its fallback
    signal has a confidence of 0.3 only. *)
Lemma weights_and_confidence_sample :
  let a := (assessRisk Samples.opportunity 100000 (create 0)).1 in
  let sig := QuantumSignalProcessor.getFallbackSignal Samples.opportunity "" in
  (exists cs, checks a = Some cs /\ length cs = 10%nat /\
              Qred (RiskScoreSpec.totalWeight cs) = 31 # 20 /\
              ~ RiskScoreSpec.totalWeight cs == 1) /\
  approved a = true /\
  (exists c, QuantumSignalProcessor.confidence sig = Some c /\ c == 0.3) /\
  Executor.shouldExecute a sig = false.
Proof.
  cbn zeta. split; [|split; [|split]].
  - eexists. split; [reflexivity|]. split; [reflexivity|].
    split; [vm_compute; reflexivity | vm_compute; discriminate].
  - vm_compute. reflexivity.
  - eexists. split; [reflexivity | vm_compute; reflexivity].
  - vm_compute. reflexivity.
Qed.

(** C4, as the code has it. On a paused instance [assessRisk] denies
    with a score of 1 and computes no checks. Otherwise it computes the
    ten checks; the score is the sum of the weights of the failed
    checks over the sum of all weights, and lies between 0 and 1; the
    weights add up to 1.55; and the opportunity is approved exactly
    when all checks pass and the score is below 0.7, which happens
    exactly when all checks pass. The signal is no input of
    [assessRisk]: the scanning loop executes when the opportunity is
    approved and the signal's confidence is a number strictly above
    0.7. *)
Theorem risk_score_and_approval
    (rm : RiskManager.t) (o : Opportunity) (now : Z)
    (sig : QuantumSignalProcessor.Signal) :
  let a := (assessRisk o now rm).1 in
  let rm' := (assessRisk o now rm).2 in
  let cs := riskChecks rm' o now in
  (isPaused (riskState rm') = true ->
   approved a = false /\ riskScore a = 1 /\ checks a = None) /\
  (isPaused (riskState rm') = false ->
   checks a = Some cs /\
   length cs = 10%nat /\
   riskScore a == RiskScoreSpec.riskScore cs /\
   0 <= riskScore a <= 1 /\
   RiskScoreSpec.totalWeight cs == 1.55 /\
   (approved a = true <-> forallb passed cs = true /\ riskScore a < 0.7) /\
   (approved a = true <-> forallb passed cs = true)) /\
  (Executor.shouldExecute a sig = true <->
   approved a = true /\
   exists c, QuantumSignalProcessor.confidence sig = Some c /\ 0.7 < c).
Proof.
  cbn zeta. rewrite assessRisk_state.
  set (rm' := resetDailyCountersIfNeeded now rm).
  unfold assessRisk. fold rm'.
  split; [|split].
  - intros Hp. rewrite Hp. cbn. auto.
  - intros Hp. rewrite Hp. cbv iota zeta.
    cbn [fst snd approved riskScore checks].
    destruct (calculateRiskScore_riskChecks rm' o now) as [Hspec [Hrange Hzero]].
    cbn zeta in Hspec, Hrange, Hzero.
    destruct (riskChecks_weights rm' o now) as [Hsum [_ Hlen]].
    do 5 (split; [assumption || reflexivity|]).
    split; split.
    + intros H. apply andb_prop in H as [Hall H]. split; [exact Hall|].
      destruct (Qlt_le_dec _ _); [assumption | discriminate].
    + intros [Hall Hlt]. rewrite Hall. cbn [andb].
      destruct (Qlt_le_dec _ _); [reflexivity | lra].
    + intros H. apply andb_prop in H. tauto.
    + intros Hall. rewrite Hall. cbn [andb].
      destruct (Qlt_le_dec _ _) as [|Hge]; [reflexivity|].
      rewrite (Hzero Hall) in Hge. lra.
  - unfold Executor.shouldExecute, Executor.confident.
    split.
    + intros H. apply andb_prop in H as [Ha Hc]. split; [exact Ha|].
      destruct (QuantumSignalProcessor.confidence sig) as [c|]; [|discriminate].
      exists c. split; [reflexivity|].
      destruct (Qlt_le_dec 0.7 c); [assumption | discriminate].
    + intros [Ha [c [Hc Hlt]]]. rewrite Ha, Hc. cbn.
      destruct (Qlt_le_dec 0.7 c); [reflexivity | lra].
Qed.

Lemma risk_score_and_approval_sample :
  approved (assessRisk Samples.opportunity 100000 (create 0)).1 = true.
Proof.
  pose proof (risk_score_and_approval (create 0) Samples.opportunity 100000
                (QuantumSignalProcessor.getFallbackSignal Samples.opportunity ""))
    as H.
  cbn zeta in H. destruct H as [_ [H _]].
  destruct (H ltac:(reflexivity)) as [_ [_ [_ [_ [_ [_ Hiff]]]]]].
  apply Hiff. vm_compute. reflexivity.
Defined.

(** *** RiskManager: what else the code shows *)



Lemma runCalls_snoc cs c rm :
  (runCalls (cs ++ [c]) rm).2
  = match c with
    | Assess o now => (assessRisk o now (runCalls cs rm).2).2
    | Record o r now => recordTradeResult o r now (runCalls cs rm).2
    end.
Proof.
  rewrite runCalls_app. cbn [snd].
  destruct c as [o now|o r now]; cbn [runCalls].
  - destruct (assessRisk o now _). reflexivity.
  - reflexivity.
Qed.

Lemma recorded_snoc cs c :
  RunSpec.recorded (cs ++ [c])
  = RunSpec.recorded cs ++ match c with
                           | Assess _ _ => []
                           | Record _ r _ => [success r]
                           end.
Proof.
  induction cs as [|c0 cs IH]; cbn.
  - destruct c; reflexivity.
  - destruct c0; rewrite IH; reflexivity.
Qed.

Lemma trailingFailures_snoc results r :
  RunSpec.trailingFailures (results ++ [r])
  = if r then 0%nat else S (RunSpec.trailingFailures results).
Proof.
  unfold RunSpec.trailingFailures. rewrite rev_app_distr. cbn.
  destruct r; reflexivity.
Qed.

Lemma resetDailyCountersIfNeeded_frame now rm :
  let rm' := resetDailyCountersIfNeeded now rm in
  consecutiveFailures (riskState rm') = consecutiveFailures (riskState rm) /\
  totalTrades (riskState rm') = totalTrades (riskState rm) /\
  successfulTrades (riskState rm') = successfulTrades (riskState rm) /\
  lastTradeTime (riskState rm') = lastTradeTime (riskState rm) /\
  isPaused (riskState rm') = isPaused (riskState rm) /\
  pauseReason (riskState rm') = pauseReason (riskState rm) /\
  riskParams rm' = riskParams rm /\
  tradeHistory rm' = tradeHistory rm /\
  maxHistorySize rm' = maxHistorySize rm.
Proof.
  cbn zeta. unfold resetDailyCountersIfNeeded.
  destruct (_ <=? _)%Z; cbn; repeat split.
Qed.

(** Appending to a window of the last [bound] elements and dropping the
    oldest one when the window overflows gives the window of the
    extended list. *)
Lemma push_window {A} (bound : nat) (results h : list A) (r : A) :
  h = drop (length results - bound) results ->
  (if (bound <? length (h ++ [r]))%nat then tail (h ++ [r]) else h ++ [r])
  = drop (length (results ++ [r]) - bound) (results ++ [r]).
Proof.
  intros ->. destruct bound as [|bound].
  { rewrite !Nat.sub_0_r, !drop_all. reflexivity. }
  rewrite !length_app, length_drop. cbn [length].
  destruct (S bound <? _)%nat eqn:Hfull;
    [apply Nat.ltb_lt in Hfull | apply Nat.ltb_ge in Hfull].
  - assert (Hge : (S bound <= length results)%nat) by lia.
    replace (length results + 1 - S bound)%nat
      with (S (length results - S bound)) by lia.
    destruct (lookup_lt_is_Some_2 results (length results - S bound)) as [x Hx];
      [lia|].
    rewrite (drop_S _ _ _ Hx). cbn [app tail].
    rewrite drop_app_le by lia. reflexivity.
  - replace (length results + 1 - S bound)%nat with 0%nat by lia.
    replace (length results - S bound)%nat with 0%nat by lia.
    reflexivity.
Qed.

Lemma historyResults_record o r now rm :
  RunSpec.historyResults (recordTradeResult o r now rm)
  = let h := RunSpec.historyResults rm ++ [success r] in
    if (maxHistorySize rm <? length h)%nat then tail h else h.
Proof.
  assert (Hpush : tradeHistory (recordTradeResult o r now rm)
                  = tradeHistory (pushHistory
                                    {| tradeTimestamp := now;
                                       tradeOpportunity := o;
                                       tradeResult := r;
                                       tradeProfit := if success r then estimatedProfit o else 0%Z;
                                       tradeLoss := if success r then 0%Z else estimatedProfit o |}
                                    rm)).
  { unfold recordTradeResult, pauseSystem.
    destruct (success r); cbn; [reflexivity|].
    destruct (_ <=? _)%nat; reflexivity. }
  unfold RunSpec.historyResults. rewrite Hpush. unfold pushHistory. cbn [tradeHistory].
  cbn zeta. rewrite !length_app, length_map. cbn [length].
  destruct (_ <? _)%nat.
  - destruct (tradeHistory rm); cbn [app tail map]; [reflexivity|].
    rewrite map_app. reflexivity.
  - rewrite map_app. reflexivity.
Qed.

Lemma recordTradeResult_totals o r now rm :
  totalTrades (riskState (recordTradeResult o r now rm))
  = S (totalTrades (riskState rm)) /\
  successfulTrades (riskState (recordTradeResult o r now rm))
  = ((if success r then 1 else 0) + successfulTrades (riskState rm))%nat /\
  maxHistorySize (recordTradeResult o r now rm) = maxHistorySize rm.
Proof.
  unfold recordTradeResult, pauseSystem.
  destruct (success r); cbn; [auto|].
  destruct (_ <=? _)%nat; cbn; auto.
Qed.

(** What an instance has counted after any run of assessments and
    records from its creation: [totalTrades] is the number of records,
    [successfulTrades] the number of successful ones, and the trade
    history holds the last 1000 results, in their order. *)
Theorem run_bookkeeping (now0 : Z) (cs : list Call) :
  let rm := (runCalls cs (create now0)).2 in
  let results := RunSpec.recorded cs in
  totalTrades (riskState rm) = length results /\
  successfulTrades (riskState rm) = RunSpec.successes results /\
  (successfulTrades (riskState rm) <= totalTrades (riskState rm))%nat /\
  RunSpec.historyResults rm = drop (length results - 1000) results /\
  length (tradeHistory rm) = Nat.min 1000 (length results) /\
  maxHistorySize rm = 1000%nat.
Proof.
  cbn zeta.
  assert (Hmain :
            totalTrades (riskState (runCalls cs (create now0)).2)
            = length (RunSpec.recorded cs) /\
            successfulTrades (riskState (runCalls cs (create now0)).2)
            = RunSpec.successes (RunSpec.recorded cs) /\
            RunSpec.historyResults (runCalls cs (create now0)).2
            = drop (length (RunSpec.recorded cs) - 1000) (RunSpec.recorded cs) /\
            maxHistorySize (runCalls cs (create now0)).2 = 1000%nat).
  { induction cs as [|c cs IH] using rev_ind.
    - cbn. repeat split.
    - destruct IH as [Htot [Hsucc [Hhist Hmax]]].
      rewrite runCalls_snoc, recorded_snoc.
      set (rm := (runCalls cs (create now0)).2) in *.
      set (results := RunSpec.recorded cs) in *.
      destruct c as [o now|o r now].
      + rewrite assessRisk_state, app_nil_r.
        destruct (resetDailyCountersIfNeeded_frame now rm)
          as [_ [H1 [H2 [_ [_ [_ [_ [H3 H4]]]]]]]].
        unfold RunSpec.historyResults in *. rewrite H1, H2, H3, H4. auto.
      + destruct (recordTradeResult_totals o r now rm) as [H1 [H2 H3]].
        rewrite H1, H2, H3, historyResults_record, Hmax. cbn zeta.
        split; [rewrite length_app; cbn; lia|]. split; [|split; [|exact eq_refl]].
        * unfold RunSpec.successes in *. rewrite List.filter_app, length_app, Hsucc.
          destruct (success r); cbn; lia.
        * apply push_window. exact Hhist. }
  destruct Hmain as [Htot [Hsucc [Hhist Hmax]]].
  split; [exact Htot|]. split; [exact Hsucc|]. split.
  { rewrite Htot, Hsucc. unfold RunSpec.successes. apply List.filter_length_le. }
  split; [exact Hhist|]. split; [|exact Hmax].
  apply (f_equal length) in Hhist. unfold RunSpec.historyResults in Hhist.
  rewrite length_map, length_drop in Hhist. lia.
Qed.

Lemma streakReached_snoc limit results r :
  RunSpec.streakReached limit (results ++ [r]) <->
  RunSpec.streakReached limit results \/
  (r = false /\ (limit <= S (RunSpec.trailingFailures results))%nat).
Proof.
  unfold RunSpec.streakReached. split.
  - intros [n [Hn [Hlast Hstreak]]]. rewrite length_app in Hn. cbn in Hn.
    destruct (decide (n <= length results)%nat) as [Hle|Hgt].
    + left. exists n. rewrite take_app_le in Hlast, Hstreak by lia. auto.
    + right. rewrite take_ge in Hlast, Hstreak by (rewrite length_app; cbn; lia).
      rewrite last_snoc in Hlast. injection Hlast as ->.
      rewrite trailingFailures_snoc in Hstreak. auto.
  - intros [[n [Hn [Hlast Hstreak]]]|[-> Hstreak]].
    + exists n. rewrite length_app, take_app_le by lia. split; [lia | auto].
    + exists (S (length results)). rewrite length_app. cbn [length].
      rewrite take_ge by (rewrite length_app; cbn; lia).
      rewrite last_snoc, trailingFailures_snoc. split; [lia | auto].
Qed.

(** After any run of assessments and records from its creation, the
    failure counter of an instance is the number of failed records
    since the last successful one, and the instance is paused exactly
    when some failed record has ended a streak of three failures or
    more: there is no other way into the pause, and no way out of it,
    within such a run. *)
Theorem run_failure_streak (now0 : Z) (cs : list Call) :
  let rm := (runCalls cs (create now0)).2 in
  let results := RunSpec.recorded cs in
  consecutiveFailures (riskState rm) = RunSpec.trailingFailures results /\
  (isPaused (riskState rm) = true <-> RunSpec.streakReached 3 results).
Proof.
  cbn zeta.
  assert (Hmain :
            consecutiveFailures (riskState (runCalls cs (create now0)).2)
            = RunSpec.trailingFailures (RunSpec.recorded cs) /\
            (isPaused (riskState (runCalls cs (create now0)).2) = true
             <-> RunSpec.streakReached 3 (RunSpec.recorded cs)) /\
            maxConsecutiveFailures (riskParams (runCalls cs (create now0)).2) = 3%nat).
  { induction cs as [|c cs IH] using rev_ind.
    - cbn. split; [reflexivity|]. split; [|reflexivity].
      split; [discriminate|]. intros [n [Hn [Hlast _]]].
      cbn in Hn. assert (n = 0%nat) as -> by lia. discriminate.
    - destruct IH as [Hcount [Hpaused Hmax]].
      rewrite runCalls_snoc, recorded_snoc.
      set (rm := (runCalls cs (create now0)).2) in *.
      set (results := RunSpec.recorded cs) in *.
      destruct c as [o now|o r now].
      + rewrite assessRisk_state, app_nil_r.
        destruct (resetDailyCountersIfNeeded_frame now rm)
          as [H1 [_ [_ [_ [H2 [_ [H3 _]]]]]]].
        rewrite H1, H2, H3. auto.
      + rewrite trailingFailures_snoc, streakReached_snoc, <- Hpaused, <- Hcount.
        unfold recordTradeResult, pauseSystem.
        destruct (success r) eqn:Hr; cbn.
        * split; [reflexivity|]. split; [|exact Hmax].
          split; [auto|]. intros [H|[H _]]; [exact H | discriminate].
        * rewrite Hmax.
          destruct (3 <=? S (consecutiveFailures (riskState rm)))%nat eqn:Hlim; cbn.
          -- apply Nat.leb_le in Hlim. split; [reflexivity|]. split; [|exact Hmax].
             split; auto.
          -- apply Nat.leb_gt in Hlim. split; [reflexivity|]. split; [|exact Hmax].
             split; [auto|]. intros [H|[_ H]]; [exact H | lia]. }
  destruct Hmain as [H1 [H2 _]]. auto.
Qed.

Lemma estimateSlippage_le (o : Opportunity) : estimateSlippage o <= 0.6.
Proof.
  unfold estimateSlippage.
  pose proof (Q.le_min_r (Ethers.etherOf (amount o) / 10) 5). lra.
Qed.

(** With the parameters of the constructor, five of the ten checks pass
    for every opportunity: slippage, gas price, liquidity utilisation,
    volatility and liquidity threshold. An opportunity is approved
    exactly when the instance is not paused, its estimated profit is at
    least 0.001 ether, five percent of its amount is at most 0.1 ether
    and, added to the daily loss that stands after the daily reset, at
    most 1 ether, the last recorded trade is a minute old or more, and
    fewer than three failures stand on the counter. *)
Theorem assessRisk_default_approval
    (rm : RiskManager.t) (o : Opportunity) (now : Z)
    (Hparams : riskParams rm = defaultRiskParams) :
  let a := (assessRisk o now rm).1 in
  let rm' := (assessRisk o now rm).2 in
  (passed (checkSlippage rm' o) = true /\
   passed (checkGasPrice rm') = true /\
   passed (checkLiquidityUtilization rm' o) = true /\
   passed (checkVolatility rm' o) = true /\
   passed (checkLiquidityThreshold rm' o) = true) /\
  (approved a = true <->
   isPaused (riskState rm) = false /\
   (Ethers.parseMilliEther 1 <= estimatedProfit o)%Z /\
   (Ethers.mulDiv (amount o) 5 100 <= Ethers.parseMilliEther 100)%Z /\
   (dailyLoss (riskState rm') + Ethers.mulDiv (amount o) 5 100
    <= Ethers.parseEther 1)%Z /\
   (60000 <= now - lastTradeTime (riskState rm))%Z /\
   (consecutiveFailures (riskState rm) < 3)%nat).
Proof.
  cbn zeta. rewrite assessRisk_state.
  destruct (resetDailyCountersIfNeeded_frame now rm)
    as [Hcf [_ [_ [Hlt [Hp [_ [Hrp _]]]]]]].
  set (rm' := resetDailyCountersIfNeeded now rm) in *.
  rewrite Hparams in Hrp.
  assert (Hslip : passed (checkSlippage rm' o) = true).
  { unfold checkSlippage. cbn [passed]. rewrite Hrp. cbn [maxSlippage defaultRiskParams].
    apply Qle_bool_iff. pose proof (estimateSlippage_le o).
    change (inject_Z 5) with 5. lra. }
  assert (Hfixed : passed (checkGasPrice rm') = true /\
                   passed (checkLiquidityUtilization rm' o) = true /\
                   passed (checkVolatility rm' o) = true /\
                   passed (checkLiquidityThreshold rm' o) = true).
  { unfold checkGasPrice, checkLiquidityUtilization, checkVolatility,
      checkLiquidityThreshold. cbn [passed]. rewrite Hrp. vm_compute. auto. }
  destruct Hfixed as [Hgas [Hutil [Hvol Hliq]]].
  split; [auto 6|].
  unfold assessRisk. fold rm'. rewrite Hp.
  destruct (isPaused (riskState rm)) eqn:Hpaused.
  { cbn. split; [discriminate | intros [H _]; discriminate]. }
  cbv iota zeta. cbn [fst approved].
  destruct (calculateRiskScore_riskChecks rm' o now) as [_ [_ Hzero]].
  cbn zeta in Hzero.
  assert (Happ : forallb passed (riskChecks rm' o now)
                 && (if Qlt_le_dec (calculateRiskScore (riskChecks rm' o now)) 0.7
                     then true else false) = true
                 <-> forallb passed (riskChecks rm' o now) = true).
  { split.
    - intros H. apply andb_prop in H. tauto.
    - intros Hall. rewrite Hall. cbn [andb].
      destruct (Qlt_le_dec _ _) as [|Hge]; [reflexivity|].
      rewrite (Hzero Hall) in Hge. lra. }
  rewrite Happ. unfold riskChecks. cbn [forallb].
  rewrite Hslip, Hgas, Hutil, Hvol, Hliq.
  unfold checkProfitThreshold, checkDailyLossLimit, checkSingleTradeLossLimit,
    checkCooldownPeriod, checkConsecutiveFailures, estimatedLoss.
  cbn [passed]. rewrite Hrp, Hcf, Hlt.
  cbn [minProfitThreshold maxDailyLoss maxSingleTradeLoss maxSlippage
         cooldownPeriod maxConsecutiveFailures defaultRiskParams].
  rewrite !andb_true_r, !andb_true_iff, !Z.leb_le, Nat.ltb_lt.
  tauto.
Qed.

Lemma assessRisk_default_approval_sample :
  approved (assessRisk Samples.opportunity 100000 (create 0)).1 = true.
Proof.
  apply (assessRisk_default_approval (create 0) Samples.opportunity 100000 eq_refl).
  vm_compute. repeat split; try discriminate. lia.
Defined.

(** The fold of [getFailureReason] ends on an element of largest weight. *)
Lemma primaryFailure_max (cs : list RiskCheck) (c : RiskCheck) :
  let pick := fold_left (fun prev current =>
                           if Qlt_le_dec (weight current) (weight prev)
                           then prev else current) cs c in
  In pick (c :: cs) /\ forall x, In x (c :: cs) -> weight x <= weight pick.
Proof.
  cbn zeta. revert c. induction cs as [|d cs IH]; intros c.
  - cbn. split; [auto|]. intros x [<-|[]]. apply Qle_refl.
  - cbn [fold_left].
    destruct (Qlt_le_dec (weight d) (weight c)) as [Hlt|Hle].
    + destruct (IH c) as [Hin Hmax]. split.
      * destruct Hin as [<-|Hin]; [left; reflexivity | right; right; exact Hin].
      * intros x [<-|[<-|Hx]].
        -- apply Hmax. left. reflexivity.
        -- apply Qle_trans with (weight c); [lra|]. apply Hmax. left. reflexivity.
        -- apply Hmax. right. exact Hx.
    + destruct (IH d) as [Hin Hmax]. split.
      * right. exact Hin.
      * intros x [<-|[<-|Hx]].
        -- apply Qle_trans with (weight d); [exact Hle|]. apply Hmax. left. reflexivity.
        -- apply Hmax. left. reflexivity.
        -- apply Hmax. right. exact Hx.
Qed.

Lemma getFailureReason_cases (cs : list RiskCheck) :
  (forallb passed cs = true /\ getFailureReason cs = HighRiskScore) \/
  (exists c, In c cs /\ passed c = false /\
             getFailureReason cs = CheckFailed (name c) /\
             forall x, In x cs -> passed x = false -> weight x <= weight c).
Proof.
  unfold getFailureReason.
  destruct (filter (fun c => passed c = false) cs) as [|c rest] eqn:Hfilter.
  - left. split; [|reflexivity].
    apply forallb_forall. intros x Hx.
    destruct (passed x) eqn:Hpx; [reflexivity|].
    exfalso. apply (filter_nil_not_elem_of _ _ x Hfilter Hpx).
    apply list_elem_of_In. exact Hx.
  - right. destruct (primaryFailure_max rest c) as [Hin Hmax]. cbn zeta in Hin, Hmax.
    set (pick := fold_left _ rest c) in *.
    assert (Hsub : forall x, In x (c :: rest) <-> passed x = false /\ In x cs).
    { intros x. rewrite <- Hfilter, <- !list_elem_of_In.
      exact (list_elem_of_filter (fun c => passed c = false) cs x). }
    exists pick. apply Hsub in Hin as [Hfail Hincs].
    split; [exact Hincs|]. split; [exact Hfail|]. split; [reflexivity|].
    intros x Hx Hpx. apply Hmax. apply Hsub. auto.
Qed.

(** The reason of an assessment. On a paused instance it is the pause
    with its text. On an approval it is the fixed text of a passed
    assessment. On a denial it names a failed check whose weight no
    other failed check exceeds; the text [High risk score], which
    [getFailureReason] keeps for a denial without a failed check, is
    never the reason of an assessment. *)
Theorem assessRisk_reason (rm : RiskManager.t) (o : Opportunity) (now : Z) :
  let a := (assessRisk o now rm).1 in
  let rm' := (assessRisk o now rm).2 in
  match reason a with
  | SystemPaused why =>
      isPaused (riskState rm) = true /\ why = pauseReason (riskState rm) /\
      approved a = false
  | RiskAssessmentPassed =>
      isPaused (riskState rm) = false /\ approved a = true
  | HighRiskScore => False
  | CheckFailed primary =>
      isPaused (riskState rm) = false /\ approved a = false /\
      exists c, In c (riskChecks rm' o now) /\ name c = primary /\
                passed c = false /\
                forall x, In x (riskChecks rm' o now) -> passed x = false ->
                          weight x <= weight c
  end.
Proof.
  cbn zeta. rewrite assessRisk_state.
  destruct (resetDailyCountersIfNeeded_frame now rm)
    as [_ [_ [_ [_ [Hp [Hwhy _]]]]]].
  set (rm' := resetDailyCountersIfNeeded now rm) in *.
  unfold assessRisk. fold rm'. rewrite Hp, Hwhy.
  destruct (isPaused (riskState rm)) eqn:Hpaused.
  { cbn. auto. }
  cbv iota zeta. cbn [fst approved reason].
  destruct (calculateRiskScore_riskChecks rm' o now) as [_ [_ Hzero]].
  cbn zeta in Hzero.
  set (cs := riskChecks rm' o now) in *.
  destruct (forallb passed cs) eqn:Hall.
  - destruct (Qlt_le_dec (calculateRiskScore cs) 0.7) as [_|Hge].
    + cbn. auto.
    + rewrite (Hzero eq_refl) in Hge. lra.
  - cbn [andb].
    destruct (getFailureReason_cases cs) as [[Hall' _]|[c [Hin [Hfail [Hreason Hmax]]]]].
    + congruence.
    + rewrite Hreason. split; [reflexivity|]. split; [reflexivity|].
      exists c. auto.
Qed.

Lemma resetDailyCountersIfNeeded_idem now rm :
  resetDailyCountersIfNeeded now (resetDailyCountersIfNeeded now rm)
  = resetDailyCountersIfNeeded now rm.
Proof.
  unfold resetDailyCountersIfNeeded.
  destruct (oneDayMs <=? now - lastResetTime (riskState rm))%Z eqn:Hdue.
  - cbn [riskState withRiskState lastResetTime].
    rewrite Z.sub_diag. change (oneDayMs <=? 0)%Z with false. reflexivity.
  - rewrite Hdue. reflexivity.
Qed.

(** An assessment writes nothing but the daily reset: the instance it
    leaves differs from the one it finds in [dailyLoss], [dailyProfit]
    and [lastResetTime] at most, and a second assessment of the same
    opportunity at the same instant gives the same answer and leaves the
    instance as the first one left it. *)
Theorem assessRisk_frame_idempotent (rm : RiskManager.t) (o : Opportunity) (now : Z) :
  let rm' := (assessRisk o now rm).2 in
  riskParams rm' = riskParams rm /\
  tradeHistory rm' = tradeHistory rm /\
  maxHistorySize rm' = maxHistorySize rm /\
  consecutiveFailures (riskState rm') = consecutiveFailures (riskState rm) /\
  lastTradeTime (riskState rm') = lastTradeTime (riskState rm) /\
  totalTrades (riskState rm') = totalTrades (riskState rm) /\
  successfulTrades (riskState rm') = successfulTrades (riskState rm) /\
  isPaused (riskState rm') = isPaused (riskState rm) /\
  pauseReason (riskState rm') = pauseReason (riskState rm) /\
  assessRisk o now rm' = assessRisk o now rm.
Proof.
  cbn zeta. rewrite assessRisk_state.
  destruct (resetDailyCountersIfNeeded_frame now rm)
    as [H1 [H2 [H3 [H4 [H5 [H6 [H7 [H8 H9]]]]]]]].
  do 9 (split; [assumption|]).
  unfold assessRisk. rewrite resetDailyCountersIfNeeded_idem. reflexivity.
Qed.

End RiskManagerFacts.

(** *** QuantumSignalProcessor: the fallback and the pass-through *)

Section SignalFacts.

Import QuantumSignalProcessor.
Local Open Scope Q_scope.

Lemma clamp_max_min (x lo hi : Q) :
  lo <= hi -> Qmax lo (Qmin hi x) == SignalSpec.clamp x lo hi.
Proof.
  intros Hlohi. unfold SignalSpec.clamp.
  destruct (Q.min_spec hi x) as [[H1 E1]|[H1 E1]];
    destruct (Q.max_spec lo (Qmin hi x)) as [[H2 E2]|[H2 E2]];
    rewrite E2; rewrite E1 in *;
    destruct (Qlt_le_dec x lo); destruct (Qlt_le_dec hi x); lra.
Qed.

Lemma clamp_range (x lo hi : Q) :
  lo <= hi -> lo <= SignalSpec.clamp x lo hi <= hi.
Proof.
  intros Hlohi. unfold SignalSpec.clamp.
  destruct (Qlt_le_dec x lo); [lra|].
  destruct (Qlt_le_dec hi x); lra.
Qed.




Lemma ratios_le_1 (o : Opportunity) :
  SignalSpec.profitRatio o <= 1 /\ SignalSpec.sizeRatio o <= 1.
Proof. split; apply Q.le_min_r. Qed.




Lemma validateSignal_range (s : Signal) :
  validateSignal s = true <->
  exists st c,
    signal_strength s = Some st /\ confidence s = Some c /\
    0 <= st <= 1 /\ 0 <= c <= 1.
Proof.
  unfold validateSignal. split.
  - destruct (signal_strength s) as [st|]; [|discriminate].
    destruct (confidence s) as [c|]; [|discriminate].
    intros H. repeat (apply andb_prop in H as [H ?]).
    exists st, c. repeat split; try reflexivity; apply Qle_bool_iff; assumption.
  - intros [st [c [-> [-> [[H1 H2] [H3 H4]]]]]].
    apply Qle_bool_iff in H1, H2, H3, H4. rewrite H1, H2, H3, H4. reflexivity.
Qed.

(** A run of the script that is no clean exit with a parsable output
    is reported as an error. *)
Lemma runPythonScript_failures :
  (forall code parsed, code <> 0%Z ->
      out_error (runPythonScript (Closed code parsed)) <> None) /\
  out_error (runPythonScript (Closed 0 None)) <> None /\
  (forall msg, out_error (runPythonScript (SpawnFailed msg)) <> None) /\
  out_error (runPythonScript TimedOut) <> None.
Proof.
  repeat split; try discriminate.
  intros code parsed Hcode.
  destruct code; [congruence | |]; destruct parsed; discriminate.
Qed.

(** With the processor initialised, a script that prints a strength of
    1.5 and a confidence of 2 gets them through: the signal returned
    has source [quantum], carries both values, is not valid, and
    passes the confidence test of the scanning loop. *)
Lemma processSignal_out_of_range_sample :
  let s := processSignal true Samples.opportunity SignalSamples.outOfRange "" in
  source s = quantum /\
  signal_strength s = Some 1.5 /\
  confidence s = Some 2 /\
  validateSignal s = false /\
  s <> getFallbackSignal Samples.opportunity "" /\
  Executor.confident s = true.
Proof. cbn zeta. repeat split; try reflexivity. discriminate. Qed.

(** C2, as the code has it. [processSignal] returns the fallback signal
    when the processor is not initialised and when the script run
    reports an error; otherwise it returns the strength and the
    confidence of the script's output unchanged, with source
    [quantum], so the returned signal is within range exactly when the
    output is. [validateSignal], which [processSignal] does not call,
    accepts exactly the signals with both numbers between 0 and 1. *)
Theorem processSignal_fallback_or_passthrough
    (isInitialized : bool) (o : Opportunity) (run : PythonRun) (nowIso : string) :
  let s := processSignal isInitialized o run nowIso in
  let out := runPythonScript run in
  (isInitialized = false -> s = getFallbackSignal o nowIso) /\
  (isInitialized = true -> out_error out <> None ->
   s = getFallbackSignal o nowIso) /\
  (isInitialized = true -> out_error out = None ->
   source s = quantum /\
   signal_strength s = out_signal_strength out /\
   confidence s = out_confidence out /\
   (validateSignal s = true <->
    exists st c,
      out_signal_strength out = Some st /\ out_confidence out = Some c /\
      0 <= st <= 1 /\ 0 <= c <= 1)).
Proof.
  cbn zeta. unfold processSignal. split; [|split].
  - intros ->. reflexivity.
  - intros -> Herr. cbn [negb].
    destruct (out_error (runPythonScript run)); [reflexivity | congruence].
  - intros -> Herr. cbn [negb]. rewrite Herr.
    split; [reflexivity|]. split; [reflexivity|]. split; [reflexivity|].
    apply validateSignal_range.
Qed.

Lemma processSignal_in_range_sample :
  validateSignal (processSignal true Samples.opportunity SignalSamples.inRange "")
  = true.
Proof.
  destruct (processSignal_fallback_or_passthrough
              true Samples.opportunity SignalSamples.inRange "") as [_ [_ H]].
  destruct (H ltac:(reflexivity) ltac:(reflexivity)) as [_ [_ [_ Hiff]]].
  apply Hiff. eexists. eexists.
  split; [reflexivity|]. split; [reflexivity|].
  repeat split; discriminate.
Defined.

(** *** QuantumSignalProcessor: what else the code shows *)

Lemma fallback_confidence_bounds (o : Opportunity) (nowIso : string) :
  exists st c,
    signal_strength (getFallbackSignal o nowIso) = Some st /\
    confidence (getFallbackSignal o nowIso) = Some c /\
    st == (SignalSpec.profitRatio o + SignalSpec.sizeRatio o) / 2 /\
    st <= 1 /\ 0.3 <= c <= 0.8 /\ (0.7 < c -> 0.7 < st).
Proof.
  unfold getFallbackSignal. cbn [signal_strength confidence].
  fold (SignalSpec.profitRatio o). fold (SignalSpec.sizeRatio o).
  set (st := (SignalSpec.profitRatio o + SignalSpec.sizeRatio o) / 2).
  exists st, (Qmax 0.3 (Qmin 0.8 st)).
  split; [reflexivity|]. split; [reflexivity|]. split; [reflexivity|].
  destruct (ratios_le_1 o) as [Hp Hs].
  assert (Hst : st <= 1).
  { unfold st. apply Qle_shift_div_r; [reflexivity | lra]. }
  rewrite (clamp_max_min st 0.3 0.8) by lra.
  pose proof (clamp_range st 0.3 0.8 ltac:(lra)) as Hrange.
  split; [exact Hst|]. split; [exact Hrange|].
  unfold SignalSpec.clamp.
  destruct (Qlt_le_dec st 0.3); [lra|].
  destruct (Qlt_le_dec 0.8 st); lra.
Qed.


(** The fallback signal never leads to an execution when the limit on
    the loss of a single trade is below [maxSlippage] percent of 40
    ether, as it is with the constructor's parameters (0.1 ether
    against 2 ether): a fallback confidence above 0.7 takes an amount
    above 40 ether, and an assessment approves no such amount. *)
Theorem fallback_signal_never_executes
    (rm : RiskManager.t) (o : Opportunity) (now : Z) (nowIso : string)
    (Hslip : (0 <= RiskManager.maxSlippage (RiskManager.riskParams rm))%Z)
    (Hloss : (RiskManager.maxSingleTradeLoss (RiskManager.riskParams rm) * 100
              < Ethers.parseEther 40
                * RiskManager.maxSlippage (RiskManager.riskParams rm))%Z) :
  Executor.shouldExecute (RiskManager.assessRisk o now rm).1
    (getFallbackSignal o nowIso) = false.
Proof.
  destruct (Executor.shouldExecute _ _) eqn:Hexec; [exfalso | reflexivity].
  unfold Executor.shouldExecute, Executor.confident in Hexec.
  apply andb_prop in Hexec as [Happroved Hconfident].
  destruct (fallback_confidence_bounds o nowIso)
    as [st [c [_ [Ec [Hst [_ [_ Hhigh]]]]]]].
  rewrite Ec in Hconfident.
  destruct (Qlt_le_dec 0.7 c) as [Hc|]; [clear Hconfident | discriminate].
  specialize (Hhigh Hc).
  (* the amount is above 40 ether *)
  assert (Hamount : (Ethers.parseEther 40 < amount o)%Z).
  { destruct (ratios_le_1 o) as [Hp _].
    assert (Hsum : st * 2 == SignalSpec.profitRatio o + SignalSpec.sizeRatio o).
    { rewrite Hst. field. }
    assert (Hsize : 0.4 < SignalSpec.sizeRatio o) by lra.
    unfold SignalSpec.sizeRatio in Hsize.
    set (q := inject_Z (amount o) / inject_Z (10 ^ 20)) in *.
    pose proof (Q.le_min_l q 1) as Hmin.
    assert (Hq : 0.4 < q) by lra.
    destruct (Z_lt_le_dec (Ethers.parseEther 40) (amount o)) as [|Hle]; [assumption|].
    exfalso. rewrite Zle_Qle in Hle.
    assert (q <= 0.4); [|lra].
    unfold q. apply Qle_shift_div_r; [reflexivity|].
    apply Qle_trans with (inject_Z (Ethers.parseEther 40)); [exact Hle|].
    vm_compute. discriminate. }
  (* the assessment approves no such amount *)
  unfold RiskManager.assessRisk in Happroved.
  destruct (resetDailyCountersIfNeeded_frame now rm)
    as [_ [_ [_ [_ [_ [_ [Hrp _]]]]]]].
  set (rm' := RiskManager.resetDailyCountersIfNeeded now rm) in *.
  destruct (RiskManager.isPaused (RiskManager.riskState rm')); [discriminate|].
  cbn [fst RiskManager.approved] in Happroved.
  apply andb_prop in Happroved as [Hall _].
  unfold RiskManager.riskChecks in Hall. cbn [forallb] in Hall.
  apply andb_prop in Hall as [_ Hall].
  apply andb_prop in Hall as [_ Hall].
  apply andb_prop in Hall as [Hsingle _].
  unfold RiskManager.checkSingleTradeLossLimit, RiskManager.estimatedLoss,
    Ethers.mulDiv in Hsingle.
  cbn [RiskManager.passed] in Hsingle. rewrite Hrp in Hsingle.
  apply Z.leb_le in Hsingle.
  set (s := RiskManager.maxSlippage (RiskManager.riskParams rm)) in *.
  set (limit := RiskManager.maxSingleTradeLoss (RiskManager.riskParams rm)) in *.
  assert (Hquot : (Ethers.parseMilliEther 400 * s <= (amount o * s) ÷ 100)%Z).
  { replace (Ethers.parseMilliEther 400 * s)%Z
      with ((Ethers.parseMilliEther 400 * s * 100) ÷ 100)%Z
      by (apply Z.quot_mul; lia).
    apply Z.quot_le_mono; [lia|].
    replace (Ethers.parseMilliEther 400 * s * 100)%Z
      with (Ethers.parseEther 40 * s)%Z
      by (unfold Ethers.parseMilliEther, Ethers.parseEther; lia).
    apply Z.mul_le_mono_nonneg_r; lia. }
  assert (Ethers.parseEther 40 = Ethers.parseMilliEther 400 * 100)%Z as Heq
    by reflexivity.
  lia.
Qed.

Lemma fallback_signal_never_executes_sample :
  Executor.shouldExecute
    (RiskManager.assessRisk Samples.opportunity 100000 (RiskManager.create 0)).1
    (getFallbackSignal Samples.opportunity "") = false.
Proof.
  apply (fallback_signal_never_executes (RiskManager.create 0)
           Samples.opportunity 100000 "").
  - vm_compute. discriminate.
  - vm_compute. reflexivity.
Defined.

End SignalFacts.

(** *** ArbitrageCalculator: the profit of a returned opportunity *)

Section ScannerFacts.

Import ArbitrageCalculator.

Variable World : Type.
Variable getAmountsOut : Dex -> Z -> list string -> World -> option (list Z) * World.

Lemma post_ret {A} (a : A) (P : A -> Prop) : P a -> post (World:=World) (ret a) P.
Proof. intros H w. exact H. Qed.

Lemma post_bind {A B} (m : M World A) (k : A -> M World B) (Q : B -> Prop) :
  (forall a, post (k a) Q) -> post (bind m k) Q.
Proof.
  intros Hk w. unfold bind. destruct (m w) as [a w']. apply Hk.
Qed.

Lemma tryPath_candidates tok0 tok1 amt forward backward buy sell label :
  post (tryPath World getAmountsOut tok0 tok1 amt forward backward buy sell label)
    (Forall (candidateFor amt)).
Proof.
  unfold tryPath.
  destruct forward as [f|]; [|apply post_ret; constructor].
  destruct backward as [b|]; [|apply post_ret; constructor].
  apply post_bind. intros fin. apply post_ret.
  destruct fin as [fin|]; [|constructor].
  destruct (amt <? fin)%Z eqn:Hlt; [|constructor].
  apply Z.ltb_lt in Hlt.
  constructor; [|constructor]. split; cbn; [lia | reflexivity].
Qed.

Lemma bestCandidate_In (l : list Candidate) (c : Candidate) :
  bestCandidate l = Some c -> In c l.
Proof.
  destruct l as [|c0 cs]; [discriminate|]. cbn. intros [= <-].
  revert c0. induction cs as [|c1 cs IH]; intros c0; cbn; [auto|].
  destruct (profit c0 <? profit c1)%Z.
  - destruct (IH c1) as [<-|Hin]; auto.
  - destruct (IH c0) as [<-|Hin]; auto.
Qed.

Lemma calculateArbitrageProfit_candidate tok0 tok1 amt :
  post (calculateArbitrageProfit World getAmountsOut tok0 tok1 amt)
    (fun r => forall c, r = Some c -> candidateFor amt c).
Proof.
  unfold calculateArbitrageProfit.
  do 4 (apply post_bind; intros ?).
  intros w. unfold bind.
  pose proof (tryPath_candidates tok0 tok1 amt a a2 UNISWAP_V2 SUSHISWAP
                "UNI_V2 -> SUSHI" w) as H1.
  destruct (tryPath _ _ _ _ _ a a2 _ _ _ w) as [first w1]. cbn in H1.
  pose proof (tryPath_candidates tok0 tok1 amt a0 a1 SUSHISWAP UNISWAP_V2
                "SUSHI -> UNI_V2" w1) as H2.
  destruct (tryPath _ _ _ _ _ a0 a1 _ _ _ w1) as [second w2]. cbn in H2.
  cbn. intros c Hc. apply bestCandidate_In in Hc.
  assert (Hall : Forall (candidateFor amt) (first ++ second))
    by (apply Forall_app; split; assumption).
  rewrite Forall_forall in Hall. apply Hall.
  apply list_elem_of_In. exact Hc.
Qed.

Lemma scanAmounts_inv tok0 tok1 amts acc :
  (forall a, In a amts -> In a testAmounts) ->
  scanInv acc ->
  post (scanAmounts World getAmountsOut tok0 tok1 amts acc) scanInv.
Proof.
  revert acc. induction amts as [|amt rest IH]; intros acc Hsub Hacc; cbn.
  - apply post_ret. exact Hacc.
  - intros w. unfold bind.
    pose proof (calculateArbitrageProfit_candidate tok0 tok1 amt w) as Hc.
    destruct (calculateArbitrageProfit _ _ _ _ _ w) as [c w1]. cbn in Hc.
    apply IH.
    + intros a Ha. apply Hsub. right. exact Ha.
    + destruct c as [cand|]; [|exact Hacc].
      destruct (Hc cand eq_refl) as [Hpos Hamt].
      destruct (acc.2 <? profit cand)%Z eqn:Hlt; [|exact Hacc].
      split; cbn; [lia|].
      intros c [= <-]. split; [reflexivity|]. split; [exact Hpos|].
      rewrite Hamt. apply Hsub. left. reflexivity.
Qed.



(** The opportunity also satisfies what the fallback signal asks of
    its input. *)
Lemma scanner_opportunity_nonneg
    (pair : Pair) (now : Z) (w w' : World) (o : Opportunity) :
  findArbitrageOpportunity World getAmountsOut pair now w = (Some o, w') ->
  (0 < profitability o)%Q /\ (0 < amount o)%Z.
Proof.
  unfold findArbitrageOpportunity.
  destruct (tokens !! pairToken0 pair) as [a0|] eqn:H0; [|discriminate].
  destruct (tokens !! pairToken1 pair) as [a1|] eqn:H1; [|discriminate].
  unfold bind.
  pose proof (scanAmounts_inv a0 a1 testAmounts (None, 0%Z)
                (fun a Ha => Ha)) as Hinv.
  specialize (Hinv ltac:(split; cbn; [lia | discriminate]) w).
  destruct (scanAmounts _ _ _ _ _ _ w) as [[best maxProfit] w1].
  destruct Hinv as [Hnn Hbest]. cbn in Hnn, Hbest.
  destruct best as [best|]; [|discriminate].
  destruct (profitFloor <? maxProfit)%Z eqn:Hfloor; [|discriminate].
  apply Z.ltb_lt in Hfloor.
  destruct (Hbest best eq_refl) as [_ [_ Hamt]].
  intros [= <- _]. cbn. split.
  - unfold Ethers.etherOf. apply Qlt_shift_div_l; [reflexivity|].
    rewrite Qmult_0_l. change 0%Q with (inject_Z 0). rewrite <- Zlt_Qlt.
    assert (0 < profitFloor)%Z by reflexivity. lia.
  - unfold testAmounts in Hamt. cbn in Hamt.
    destruct Hamt as [<-|[<-|[<-|[<-|[<-|[]]]]]]; reflexivity.
Qed.

End ScannerFacts.



(** *** FlashbotsExecutor: the outcome of a bundle *)

Section RelayFacts.

Import FlashbotsExecutor.

Context {World : Type} (relay : Relay World).

Lemma emits_weaken {A} (m : M World A) (P Q : Outcome A -> list Event -> Prop) :
  emits m P -> (forall out evs, P out evs -> Q out evs) -> emits m Q.
Proof.
  intros Hm HPQ st. destruct (Hm st) as [evs [Htr HP]].
  exists evs. split; [exact Htr | apply HPQ, HP].
Qed.

Lemma emits_ret {A} (a : A) (P : Outcome A -> list Event -> Prop) :
  P (Returned a) [] -> emits (World:=World) (ret a) P.
Proof. intros HP st. exists []. cbn. rewrite app_nil_r. auto. Qed.

Lemma emits_throw {A} (message : string) (P : Outcome A -> list Event -> Prop) :
  P (Threw message) [] -> emits (World:=World) (throw message) P.
Proof. intros HP st. exists []. cbn. rewrite app_nil_r. auto. Qed.

Lemma emits_updateStats f (P : Outcome unit -> list Event -> Prop) :
  P (Returned tt) [] -> emits (World:=World) (updateStats f) P.
Proof. intros HP st. exists []. cbn. rewrite app_nil_r. auto. Qed.

Lemma emits_readClock (P : Outcome Z -> list Event -> Prop) :
  (forall now, P (Returned now) []) -> emits (readClock relay) P.
Proof. intros HP st. exists []. cbn. rewrite app_nil_r. auto. Qed.

Lemma emits_setTimeout ms (P : Outcome unit -> list Event -> Prop) :
  P (Returned tt) [EvSleep ms] -> emits (setTimeout relay ms) P.
Proof. intros HP st. exists [EvSleep ms]. cbn. auto. Qed.

Lemma emits_call {A} (ev : Reply A -> Event) (f : World -> Reply A * World)
    (P : Outcome A -> list Event -> Prop) :
  (forall a, P (Returned a) [ev (Answers a)]) ->
  (forall message, P (Threw message) [ev (Fails message)]) ->
  emits (call ev f) P.
Proof.
  intros Hok Hfail st. unfold call.
  destruct (f (world st)) as [[a|message] w]; cbn; eexists; split;
    try reflexivity; auto.
Qed.

(** The events of [bind m k] are those of [m], followed by those of the
    continuation when [m] returns. *)
Lemma emits_bind {A B} (m : M World A) (k : A -> M World B)
    (P : Outcome A -> list Event -> Prop)
    (Q : A -> Outcome B -> list Event -> Prop)
    (R : Outcome B -> list Event -> Prop) :
  emits m P ->
  (forall a, emits (k a) (Q a)) ->
  (forall a e1 out e2, P (Returned a) e1 -> Q a out e2 -> R out (e1 ++ e2)) ->
  (forall message e, P (Threw message) e -> R (Threw message) e) ->
  (forall e, P OutOfFuel e -> R OutOfFuel e) ->
  emits (bind m k) R.
Proof.
  intros Hm Hk Hret Hthrow Hfuel st. unfold bind.
  destruct (Hm st) as [e1 [Htr1 HP]].
  destruct (m st) as [[a|message|] st1]; cbn in Htr1, HP.
  - destruct (Hk a st1) as [e2 [Htr2 HQ]].
    exists (e1 ++ e2). split.
    + rewrite Htr2, Htr1, app_assoc. reflexivity.
    + eapply Hret; eassumption.
  - exists e1. split; [exact Htr1 | apply Hthrow, HP].
  - exists e1. split; [exact Htr1 | apply Hfuel, HP].
Qed.

Lemma emits_tryCatch {A} (m : M World A) (h : string -> M World A)
    (P : Outcome A -> list Event -> Prop)
    (Q : string -> Outcome A -> list Event -> Prop)
    (R : Outcome A -> list Event -> Prop) :
  emits m P ->
  (forall message, emits (h message) (Q message)) ->
  (forall message e1 out e2, P (Threw message) e1 -> Q message out e2 -> R out (e1 ++ e2)) ->
  (forall a e, P (Returned a) e -> R (Returned a) e) ->
  (forall e, P OutOfFuel e -> R OutOfFuel e) ->
  emits (tryCatch m h) R.
Proof.
  intros Hm Hh Hcatch Hret Hfuel st. unfold tryCatch.
  destruct (Hm st) as [e1 [Htr1 HP]].
  destruct (m st) as [[a|message|] st1]; cbn in Htr1, HP.
  - exists e1. split; [exact Htr1 | apply Hret, HP].
  - destruct (Hh message st1) as [e2 [Htr2 HQ]].
    exists (e1 ++ e2). split.
    + rewrite Htr2, Htr1, app_assoc. reflexivity.
    + eapply Hcatch; eassumption.
  - exists e1. split; [exact Htr1 | apply Hfuel, HP].
Qed.

Lemma calm_nil : calm [].
Proof. repeat split. Qed.

Lemma calm_app (e1 e2 : list Event) : calm e1 -> calm e2 -> calm (e1 ++ e2).
Proof.
  unfold calm, polls, rejections, sleeps.
  intros [H1 [H2 H3]] [H4 [H5 H6]].
  rewrite !omap_app, H1, H2, H3, H4, H5, H6. auto.
Qed.

Lemma polls_app (e1 e2 : list Event) : polls (e1 ++ e2) = polls e1 ++ polls e2.
Proof. apply omap_app. Qed.

Lemma rejections_app (e1 e2 : list Event) :
  rejections (e1 ++ e2) = rejections e1 ++ rejections e2.
Proof. apply omap_app. Qed.

Lemma sleeps_app (e1 e2 : list Event) : sleeps (e1 ++ e2) = sleeps e1 ++ sleeps e2.
Proof. apply omap_app. Qed.

Lemma endsCalmly_call {A} (ev : Reply A -> Event) (f : World -> Reply A * World) :
  (forall r, calm [ev r]) -> emits (call ev f) endsCalmly.
Proof.
  intros Hev. apply emits_call; intros; (split; [discriminate | apply Hev]).
Qed.

Lemma endsCalmly_ret {A} (a : A) : emits (World:=World) (ret a) endsCalmly.
Proof. apply emits_ret. split; [discriminate | apply calm_nil]. Qed.

Lemma endsCalmly_bind {A B} (m : M World A) (k : A -> M World B) :
  emits m endsCalmly -> (forall a, emits (k a) endsCalmly) ->
  emits (bind m k) endsCalmly.
Proof.
  intros Hm Hk. eapply emits_bind; [exact Hm | exact Hk | | |].
  - intros a e1 out e2 [_ H1] [Hout H2]. split; [exact Hout | apply calm_app; assumption].
  - intros message e [_ H]. split; [discriminate | exact H].
  - intros e [H _]. congruence.
Qed.

Lemma returnsCalmly_ret {A} (a : A) : emits (World:=World) (ret a) returnsCalmly.
Proof. apply emits_ret. split; [eauto | apply calm_nil]. Qed.

Lemma returnsCalmly_ends {A} (m : M World A) :
  emits m returnsCalmly -> emits m endsCalmly.
Proof.
  intros Hm. eapply emits_weaken; [exact Hm|].
  intros out evs [[a ->] H]. split; [discriminate | exact H].
Qed.

Lemma returnsCalmly_bind {A B} (m : M World A) (k : A -> M World B) :
  emits m returnsCalmly -> (forall a, emits (k a) returnsCalmly) ->
  emits (bind m k) returnsCalmly.
Proof.
  intros Hm Hk. eapply emits_bind; [exact Hm | exact Hk | | |].
  - intros a e1 out e2 [_ H1] [Hout H2]. split; [exact Hout | apply calm_app; assumption].
  - intros message e [[a Ha] _]. discriminate.
  - intros e [[a Ha] _]. discriminate.
Qed.

(** A [try] whose handler returns calmly returns calmly. *)
Lemma returnsCalmly_tryCatch {A} (m : M World A) (h : string -> M World A) :
  emits m endsCalmly -> (forall message, emits (h message) returnsCalmly) ->
  emits (tryCatch m h) returnsCalmly.
Proof.
  intros Hm Hh. eapply emits_tryCatch; [exact Hm | exact Hh | | |].
  - intros message e1 out e2 [_ H1] [Hout H2]. split; [exact Hout | apply calm_app; assumption].
  - intros a e [_ H]. split; [eauto | exact H].
  - intros e [H _]. congruence.
Qed.

Lemma estimateGas_emits tx : emits (estimateGas relay tx) returnsCalmly.
Proof.
  unfold estimateGas. apply returnsCalmly_tryCatch.
  - apply endsCalmly_bind.
    + apply endsCalmly_call. intros r. repeat split.
    + intros g. apply endsCalmly_ret.
  - intros message. apply returnsCalmly_ret.
Qed.

Lemma prepareOne_emits tx : emits (prepareOne relay tx) returnsCalmly.
Proof.
  unfold prepareOne. apply returnsCalmly_tryCatch.
  - apply endsCalmly_bind.
    + destruct (gasLimit tx); [apply endsCalmly_ret|].
      apply endsCalmly_bind.
      * apply returnsCalmly_ends, estimateGas_emits.
      * intros g. apply endsCalmly_ret.
    + intros tx1. apply endsCalmly_bind.
      * destruct (truthyNum _); [apply endsCalmly_ret|].
        apply endsCalmly_bind.
        -- apply endsCalmly_call. intros r. repeat split.
        -- intros n. apply endsCalmly_ret.
      * intros tx3. apply endsCalmly_ret.
  - intros message. apply returnsCalmly_ret.
Qed.

Lemma prepareBundleTransactions_emits txs :
  emits (prepareBundleTransactions relay txs) returnsCalmly.
Proof.
  induction txs as [|tx rest IH]; cbn.
  - apply returnsCalmly_ret.
  - apply returnsCalmly_bind; [apply prepareOne_emits|].
    intros prepared. apply returnsCalmly_bind; [exact IH|].
    intros others. apply returnsCalmly_ret.
Qed.

Lemma getTransactionHashFromBundle_emits hash blockNo :
  emits (getTransactionHashFromBundle relay hash blockNo) returnsCalmly.
Proof.
  unfold getTransactionHashFromBundle. apply returnsCalmly_tryCatch.
  - apply endsCalmly_bind.
    + apply endsCalmly_call. intros r. repeat split.
    + intros block. apply endsCalmly_ret.
  - intros message. apply returnsCalmly_ret.
Qed.

Lemma checkBlock_emits fuel blockNumber startTime timeout :
  emits (checkBlock relay fuel blockNumber startTime timeout) onlyWaits.
Proof.
  induction fuel as [|fuel IH]; cbn.
  - intros st. exists []. cbn. rewrite app_nil_r. repeat split.
  - eapply emits_bind with (P := onlyWaits) (Q := fun _ => onlyWaits).
    + apply emits_call; intros; repeat split.
    + intros currentBlock.
      destruct (blockNumber <=? currentBlock)%Z; [apply emits_ret; repeat split|].
      eapply emits_bind with (P := onlyWaits) (Q := fun _ => onlyWaits).
      * apply emits_readClock. intros now. repeat split.
      * intros now. destruct (timeout <? now - startTime)%Z;
          [apply emits_throw; repeat split|].
        eapply emits_bind with (P := onlyWaits) (Q := fun _ => onlyWaits).
        -- apply emits_setTimeout. repeat split.
        -- intros _. exact IH.
        -- intros a e1 out e2 [H1 H2] [H3 H4].
           split; [rewrite polls_app, H1, H3 | rewrite rejections_app, H2, H4]; reflexivity.
        -- intros message e H. exact H.
        -- intros e H. exact H.
      * intros a e1 out e2 [H1 H2] [H3 H4].
        split; [rewrite polls_app, H1, H3 | rewrite rejections_app, H2, H4]; reflexivity.
      * intros message e H. exact H.
      * intros e H. exact H.
    + intros a e1 out e2 [H1 H2] [H3 H4].
      split; [rewrite polls_app, H1, H3 | rewrite rejections_app, H2, H4]; reflexivity.
    + intros message e H. exact H.
    + intros e H. exact H.
Qed.

Lemma waitForBlock_emits fuel blockNumber :
  emits (waitForBlock relay fuel blockNumber) onlyWaits.
Proof.
  unfold waitForBlock.
  eapply emits_bind with (P := onlyWaits) (Q := fun _ => onlyWaits).
  - apply emits_readClock. intros now. repeat split.
  - intros startTime. apply checkBlock_emits.
  - intros a e1 out e2 [H1 H2] [H3 H4].
    split; [rewrite polls_app, H1, H3 | rewrite rejections_app, H2, H4]; reflexivity.
  - intros message e H. exact H.
  - intros e H. exact H.
Qed.

(** [submitBundle] always returns a response. *)
Lemma submitBundle_emits bundle target :
  emits (submitBundle relay bundle target) rejectedOrSent.
Proof.
  intros st. unfold submitBundle, tryCatch, bind, call, ret.
  destruct (signBundle relay bundle (world st)) as [[signed|message] w1]; cbn.
  - destruct (sendBundle relay signed target w1) as [[hash|message] w2]; cbn.
    + exists [EvSignBundle None; EvSendBundle target None].
      split; [rewrite <- app_assoc; reflexivity|].
      eexists. split; [reflexivity|]. split; [reflexivity|]. split; [reflexivity|].
      left. split; reflexivity.
    + exists [EvSignBundle None; EvSendBundle target (Some message)].
      split; [rewrite <- app_assoc; reflexivity|].
      eexists. split; [reflexivity|]. split; [reflexivity|]. split; [reflexivity|].
      right. exists message, [EvSignBundle None], (EvSendBundle target (Some message)).
      repeat split.
  - exists [EvSignBundle (Some message)].
    split; [reflexivity|].
    eexists. split; [reflexivity|]. split; [reflexivity|]. split; [reflexivity|].
    right. exists message, [], (EvSignBundle (Some message)).
    repeat split.
Qed.

Lemma pendingPolls_S (from : Z) (k : nat) :
  pendingPolls from (S k) = (from, Some false) :: pendingPolls (from + 1) k.
Proof.
  unfold pendingPolls. cbn [seq map]. f_equal.
  - f_equal. lia.
  - rewrite <- seq_shift, map_map. apply map_ext. intros j. f_equal. lia.
Qed.

(** With one more pending poll in front, the description of the rest of
    the loop is a description of the loop. *)
Lemma polled_after_pending hash from remaining out evs :
  polled hash (from + 1) remaining out evs ->
  forall e0, polls e0 = [(from, Some false)] -> rejections e0 = [] ->
  polled hash from (S remaining) out (e0 ++ evs).
Proof.
  intros [Hrej [k Hk]] e0 Hp0 Hr0. split.
  { rewrite rejections_app, Hr0, Hrej. reflexivity. }
  exists (S k). rewrite polls_app, Hp0, pendingPolls_S.
  replace (from + Z.of_nat (S k))%Z with (from + 1 + Z.of_nat k)%Z by lia.
  destruct Hk as [[-> [Ho Hp]]|[[Hlt [Ho Hp]]|[[Hlt [Ho Hp]]|[Hlt [Ho Hp]]]]].
  - left. rewrite Hp. auto.
  - right. left. rewrite Hp. split; [lia | auto].
  - right. right. left. split; [lia|]. split; [exact Ho|].
    destruct Hp as [-> | ->]; [left | right]; reflexivity.
  - right. right. right. rewrite Hp. split; [lia | auto].
Qed.

Lemma pollInclusion_emits fuel resp target i remaining :
  emits (pollInclusion relay fuel resp target i remaining)
    (polled (respBundleHash resp) (target + i) remaining).
Proof.
  revert i. induction remaining as [|remaining IH]; intros i; cbn [pollInclusion].
  - apply emits_ret. split; [reflexivity|]. exists 0%nat. left. auto.
  - intros st. unfold bind, call, updateStats, ret.
    destruct (waitForBlock_emits fuel (target + i) st) as [e1 [Htr1 [Hp1 Hr1]]].
    destruct (waitForBlock relay fuel (target + i) st) as [[cur|message|] st1];
      cbn [fst snd] in *.
    2:{ exists e1. split; [exact Htr1|]. split; [exact Hr1|].
        exists 0%nat. right. right. left. split; [lia|]. split; [eauto|].
        left. exact Hp1. }
    2:{ exists e1. split; [exact Htr1|]. split; [exact Hr1|].
        exists 0%nat. right. right. right. split; [lia|]. split; [reflexivity|].
        exact Hp1. }
    destruct (getBundleStats relay (respBundleHash resp) (target + i) (world st1))
      as [[bundleStats|message] w2]; cbn [fst snd minedOf].
    2:{ eexists. split; [cbn [trace]; rewrite Htr1, <- app_assoc; reflexivity|].
        split; [rewrite rejections_app, Hr1; reflexivity|].
        exists 0%nat. right. right. left. split; [lia|]. split; [eauto|].
        right. rewrite polls_app, Hp1. cbn.
        change (Z.of_nat 0) with 0%Z. rewrite ?Z.add_0_r. reflexivity. }
    destruct (isMined bundleStats) eqn:Hmined.
    + set (st2 := {| stats := stats st1; world := w2;
                     trace := trace st1 ++ [EvGetBundleStats (target + i) (Some true)] |}).
      cbn [fst snd].
      set (st3 := {| stats := bumpIncluded (stats st2); world := world st2;
                     trace := trace st2 |}).
      destruct (getTransactionHashFromBundle_emits (respBundleHash resp) (target + i) st3)
        as [e3 [Htr3 [[tx Htx] [Hp3 [Hr3 _]]]]].
      destruct (getTransactionHashFromBundle relay (respBundleHash resp) (target + i) st3)
        as [out3 st4]; cbn [fst snd] in *. subst out3. cbn [fst snd].
      exists (e1 ++ [EvGetBundleStats (target + i) (Some true)] ++ e3).
      split.
      { rewrite Htr3. subst st3 st2. cbn [trace]. rewrite Htr1, <- !app_assoc. reflexivity. }
      split.
      { rewrite !rejections_app, Hr1, Hr3. reflexivity. }
      exists 0%nat. right. left. split; [lia|]. split.
      { exists tx. unfold includedAt. cbn.
        change (Z.of_nat 0) with 0%Z. rewrite ?Z.add_0_r. reflexivity. }
      rewrite !polls_app, Hp1, Hp3. cbn.
      change (Z.of_nat 0) with 0%Z. rewrite ?Z.add_0_r. reflexivity.
    + set (st2 := {| stats := stats st1; world := w2;
                     trace := trace st1 ++ [EvGetBundleStats (target + i) (Some false)] |}).
      destruct (IH (i + 1)%Z st2) as [e3 [Htr3 Hpolled]].
      exists ((e1 ++ [EvGetBundleStats (target + i) (Some false)]) ++ e3).
      split.
      { rewrite Htr3. subst st2. cbn [trace]. rewrite Htr1, <- !app_assoc. reflexivity. }
      apply polled_after_pending.
      * replace (target + i + 1)%Z with (target + (i + 1))%Z by lia. exact Hpolled.
      * rewrite polls_app, Hp1. reflexivity.
      * rewrite rejections_app, Hr1. reflexivity.
Qed.

Lemma waitForBundleInclusion_emits fuel resp target window :
  emits (waitForBundleInclusion relay fuel resp target window)
    (waited (respBundleHash resp) target window).
Proof.
  unfold waitForBundleInclusion.
  eapply emits_tryCatch with
    (P := polled (respBundleHash resp) (target + 0) window)
    (Q := fun message out evs =>
            out = Returned (failedWith message (respBundleHash resp)) /\ evs = []).
  - apply pollInclusion_emits.
  - intros message. apply emits_ret. split; reflexivity.
  - intros message e1 out e2 [Hrej [k Hk]] [-> ->].
    rewrite app_nil_r, Z.add_0_r in *. split; [exact Hrej|]. exists k.
    destruct Hk as [[_ [Ho _]]|[[_ [[tx Ho] _]]|[[Hlt [_ Hp]]|[_ [Ho _]]]]];
      try discriminate.
    right. right. left. split; [exact Hlt|]. split; [eauto | exact Hp].
  - intros a e [Hrej [k Hk]]. rewrite Z.add_0_r in *. split; [exact Hrej|].
    exists k.
    destruct Hk as [[Hk [Ho Hp]]|[[Hlt [Ho Hp]]|[[_ [[m Ho] _]]|[_ [Ho _]]]]];
      try discriminate.
    + left. auto.
    + right. left. auto.
  - intros e [Hrej [k Hk]]. rewrite Z.add_0_r in *. split; [exact Hrej|].
    exists k.
    destruct Hk as [[_ [Ho _]]|[[_ [[tx Ho] _]]|[[_ [[m Ho] _]]|[Hlt [_ Hp]]]]];
      try discriminate.
    right. right. right. auto.
Qed.

Lemma attempted_prefix target out e0 evs :
  calm e0 -> attempted target out evs -> attempted target out (e0 ++ evs).
Proof.
  intros [Hp0 [Hr0 Hs0]] [[message [Ho Hc]]|[[rej [pre [ev H]]]|[Hall [hash [pre [rest H]]]]]].
  - left. exists message. split; [exact Ho|]. apply calm_app; [repeat split|]; assumption.
  - right. left. destruct H as [Hne [Ho [He [Hrej [Hpre [Hp Hs]]]]]].
    exists rej, (e0 ++ pre), ev. subst evs.
    split; [exact Hne|]. split; [exact Ho|].
    split; [apply app_assoc|]. split; [exact Hrej|].
    split; [rewrite rejections_app, Hr0, Hpre; reflexivity|].
    split; [rewrite polls_app, Hp0, Hp | rewrite sleeps_app, Hs0, Hs]; reflexivity.
  - right. right. split.
    + rewrite rejections_app, Hr0. exact Hall.
    + destruct H as [He [Hp [Hs Hw]]]. exists hash, (e0 ++ pre), rest. subst evs.
      rewrite app_assoc, polls_app, sleeps_app, Hp0, Hs0, Hp, Hs. auto.
Qed.

(** The part of [executeBundle] that follows the preparation of a
    bundle that is not empty. *)
Lemma submit_and_wait_emits fuel bundle target :
  emits
    (bind (submitBundle relay bundle target)
       (fun bundleResponse =>
          match respError bundleResponse with
          | Some (String a s) => throw ("Bundle submission failed: " +:+ String a s)
          | _ =>
              bind (updateStats bumpSubmitted)
                (fun _ => waitForBundleInclusion relay fuel bundleResponse target 3)
          end))
    (attempted target).
Proof.
  eapply emits_bind with
    (P := rejectedOrSent)
    (Q := fun resp out evs =>
            match respError resp with
            | Some (String a s) =>
                out = Threw ("Bundle submission failed: " +:+ String a s) /\ evs = []
            | _ => waited (respBundleHash resp) target 3 out evs
            end).
  - apply submitBundle_emits.
  - intros resp. destruct (respError resp) as [[|a s]|].
    + eapply emits_bind with (P := fun out evs => out = Returned tt /\ evs = [])
                             (Q := fun _ => waited (respBundleHash resp) target 3).
      * apply emits_updateStats. auto.
      * intros _. apply waitForBundleInclusion_emits.
      * intros [] e1 out e2 [_ ->] H. exact H.
      * intros message e [H _]. discriminate.
      * intros e [H _]. discriminate.
    + apply emits_throw. auto.
    + eapply emits_bind with (P := fun out evs => out = Returned tt /\ evs = [])
                             (Q := fun _ => waited (respBundleHash resp) target 3).
      * apply emits_updateStats. auto.
      * intros _. apply waitForBundleInclusion_emits.
      * intros [] e1 out e2 [_ ->] H. exact H.
      * intros message e [H _]. discriminate.
      * intros e [H _]. discriminate.
  - intros resp e1 out e2 [resp' [[= <-] [Hp [Hs Hcase]]]] HQ.
    destruct Hcase as [[Herr Hrej]|[message [pre [ev [Herr [Hhash [He [Hev Hpre]]]]]]]].
    + rewrite Herr in HQ. right. right. split.
      * destruct HQ as [Hrej2 _]. rewrite rejections_app, Hrej, Hrej2. constructor.
      * exists (respBundleHash resp), e1, e2. auto.
    + rewrite Herr in HQ. destruct message as [|a s].
      * right. right. split.
        -- destruct HQ as [Hrej2 _]. subst e1.
           rewrite !rejections_app, Hpre, Hrej2. cbn. rewrite Hev. repeat constructor.
        -- exists (respBundleHash resp), e1, e2. auto.
      * destruct HQ as [-> ->]. right. left.
        exists (String a s), pre, ev. rewrite app_nil_r.
        repeat split; try assumption; try discriminate; subst e1; assumption.
  - intros message e [resp [H _]]. discriminate.
  - intros e [resp [H _]]. discriminate.
Qed.

Lemma waited_not_thrown hash from window message evs :
  ~ waited hash from window (Threw message) evs.
Proof.
  intros [_ [k [[_ [H _]]|[[_ [[tx H] _]]|[[_ [[m H] _]]|[_ [H _]]]]]]]; discriminate.
Qed.

(** The shape of every run of [executeBundle]. *)
Lemma executeBundle_emits fuel txs tgt :
  emits (executeBundle relay fuel txs tgt)
    (fun out evs => (forall message, out <> Threw message) /\ executed tgt out evs).
Proof.
  unfold executeBundle.
  eapply emits_tryCatch with
    (P := fun out evs =>
            exists target,
              (truthyNum tgt = true -> tgt = Some target) /\ attempted target out evs)
    (Q := fun message out evs =>
            out = Returned (failedWith message None) /\ evs = []).
  - eapply emits_bind with
      (P := fun out evs =>
              out <> OutOfFuel /\ calm evs /\
              (forall target, out = Returned target ->
                              truthyNum tgt = true -> tgt = Some target) /\
              (forall message, out = Threw message -> truthyNum tgt = false))
      (Q := fun target => attempted target).
    + destruct (truthyNum tgt) eqn:Ht.
      * apply emits_ret. split; [discriminate|]. split; [apply calm_nil|].
        split; [|discriminate].
        intros target [= <-] _. destruct tgt; [reflexivity | discriminate].
      * eapply emits_bind with
          (P := fun out evs => out <> OutOfFuel /\ calm evs)
          (Q := fun _ out evs => (exists t, out = Returned t) /\ evs = []).
        -- apply emits_call; intros; (split; [discriminate | repeat split]).
        -- intros currentBlock. apply emits_ret. eauto.
        -- intros a e1 out e2 [_ Hc] [[t ->] ->]. rewrite app_nil_r.
           split; [discriminate|]. split; [exact Hc|].
           split; [discriminate|]. intros message. discriminate.
        -- intros message e [_ Hc]. split; [discriminate|]. split; [exact Hc|].
           split; [discriminate | reflexivity].
        -- intros e [H _]. congruence.
    + intros target.
      eapply emits_bind with (P := returnsCalmly) (Q := fun _ => attempted target).
      * apply prepareBundleTransactions_emits.
      * intros [|tx bundle].
        -- apply emits_throw. left. eexists. split; [reflexivity | apply calm_nil].
        -- apply submit_and_wait_emits.
      * intros bundle e1 out e2 [_ Hc] Hatt. apply attempted_prefix; assumption.
      * intros message e [[a Ha] _]. discriminate.
      * intros e [[a Ha] _]. discriminate.
    + intros target e1 out e2 [_ [Hc [Ht _]]] Hatt.
      exists target. split; [apply Ht; reflexivity|].
      apply attempted_prefix; assumption.
    + intros message e [_ [Hc [_ Ht]]]. exists 0%Z. split.
      * rewrite (Ht message eq_refl). discriminate.
      * left. eexists. split; [reflexivity | exact Hc].
    + intros e [H _]. congruence.
  - intros message.
    eapply emits_bind with (P := fun out evs => out = Returned tt /\ evs = [])
                           (Q := fun _ out evs =>
                                   out = Returned (failedWith message None) /\ evs = []).
    + apply emits_updateStats. auto.
    + intros _. apply emits_ret. auto.
    + intros [] e1 out e2 [_ ->] [-> ->]. auto.
    + intros m e [H _]. discriminate.
    + intros e [H _]. discriminate.
  - intros message e1 out e2 [target [Ht Hatt]] [-> ->]. rewrite app_nil_r.
    split; [discriminate|]. exists target. split; [exact Ht|]. left.
    exists message. split; [reflexivity|].
    destruct Hatt as [[m [[= <-] [Hp [Hr Hs]]]]|[[rej [pre [ev H]]]|[_ [hash [pre [rest [_ [_ [_ Hw]]]]]]]]].
    + auto.
    + destruct H as [Hne [[= ->] [He [Hrej [Hpre [Hp Hs]]]]]].
      split; [exact Hp|]. split; [exact Hs|]. right.
      exists rej, pre, ev. auto.
    + destruct (waited_not_thrown _ _ _ _ _ Hw).
  - intros a e [target [Ht Hatt]]. split; [discriminate|].
    exists target. split; [exact Ht|]. right.
    destruct Hatt as [[m [H _]]|[[rej [pre [ev [_ [H _]]]]]|H]]; try discriminate.
    exact H.
  - intros e [target [Ht Hatt]]. split; [discriminate|].
    exists target. split; [exact Ht|]. right.
    destruct Hatt as [[m [H _]]|[[rej [pre [ev [_ [H _]]]]]|H]]; try discriminate.
    exact H.
Qed.

Lemma pendingPolls_not_mined from k b :
  last (pendingPolls from k) <> Some (b, Some true).
Proof.
  intros H. apply last_Some_elem_of in H.
  unfold pendingPolls in H. apply list_elem_of_In, in_map_iff in H.
  destruct H as [j [[= _] _]].
Qed.

(** The inclusion window: every run of [executeBundle] polls the relay
    for at most three blocks, the target block and the ones that follow
    it; its result is a success exactly when the last poll reported the
    bundle as mined; and when three polls reported it as not mined the
    result is the failure whose error is the text
    "Bundle not included within wait period". *)
Theorem executeBundle_polls_window fuel txs tgt st :
  let run := executeBundle relay fuel txs tgt st in
  exists evs target k,
    trace run.2 = trace st ++ evs /\
    (truthyNum tgt = true -> tgt = Some target) /\
    (k <= 3)%nat /\
    map fst (polls evs) = map (fun j => (target + Z.of_nat j)%Z) (seq 0 k) /\
    (forall r, run.1 = Returned r ->
               (success r = true <->
                exists b, last (polls evs) = Some (b, Some true))) /\
    (polls evs = pendingPolls target 3 ->
     exists hash, run.1 = Returned (notIncluded hash)).
Proof.
  cbn zeta.
  destruct (executeBundle_emits fuel txs tgt st)
    as [evs [Htr [_ [target [Ht Hcase]]]]].
  exists evs, target.
  destruct Hcase as [[message [Ho [Hp _]]]|[_ [hash [pre [rest [-> [Hp [_ [_ [k Hk]]]]]]]]]].
  - exists 0%nat. rewrite Ho, Hp.
    split; [exact Htr|]. split; [exact Ht|]. split; [lia|]. split; [reflexivity|].
    split; [|discriminate].
    intros r [= <-]. cbn. split; [discriminate | intros [b H]; discriminate].
  - rewrite polls_app, Hp. cbn [app].
    destruct Hk as [[-> [Ho Hq]]|[[Hlt [[tx Ho] Hq]]|[[Hlt [[m Ho] Hq]]|[Hlt [Ho Hq]]]]];
      rewrite Ho.
    + exists 3%nat. rewrite Hq.
      split; [exact Htr|]. split; [exact Ht|]. split; [lia|]. split; [reflexivity|].
      split; [|eauto].
      intros r [= <-]. cbn [success notIncluded]. split; [discriminate|].
      intros [b H]. destruct (pendingPolls_not_mined _ _ _ H).
    + exists (S k). rewrite Hq.
      split; [exact Htr|]. split; [exact Ht|]. split; [lia|].
      split.
      { rewrite map_app, seq_S, map_app. unfold pendingPolls. rewrite map_map. reflexivity. }
      split.
      * intros r [= <-]. cbn [success includedAt]. split; [|reflexivity].
        intros _. eexists. apply last_snoc.
      * intros Heq. exfalso.
        destruct k as [|[|[|k]]]; try lia; discriminate.
    + destruct Hq as [Hq|Hq]; rewrite Hq.
      * exists k.
        split; [exact Htr|]. split; [exact Ht|]. split; [lia|]. split.
        { unfold pendingPolls. rewrite map_map. reflexivity. }
        split.
        -- intros r [= <-]. cbn [success failedWith]. split; [discriminate|].
           intros [b H]. destruct (pendingPolls_not_mined _ _ _ H).
        -- intros Heq. exfalso.
           destruct k as [|[|[|k]]]; try lia; discriminate.
      * exists (S k).
        split; [exact Htr|]. split; [exact Ht|]. split; [lia|]. split.
        { rewrite map_app, seq_S, map_app. unfold pendingPolls. rewrite map_map. reflexivity. }
        split.
        -- intros r [= <-]. cbn [success failedWith]. split; [discriminate|].
           intros [b H]. rewrite last_snoc in H. discriminate.
        -- intros Heq. exfalso.
           destruct k as [|[|[|k]]]; try lia; discriminate.
    + exists k. rewrite Hq.
      split; [exact Htr|]. split; [exact Ht|]. split; [lia|]. split.
      { unfold pendingPolls. rewrite map_map. reflexivity. }
      split; [discriminate|].
      intros Heq. exfalso.
      destruct k as [|[|[|k]]]; try lia; discriminate.
Qed.

(** A rejected signature or submission whose error has a message ends
    the run at once: the rejection is the last external call, no poll
    and no delay was made, and the result is the failure whose error is
    "Bundle submission failed: " followed by the message. *)
Theorem executeBundle_rejected_submission fuel txs tgt st evs rejection :
  let run := executeBundle relay fuel txs tgt st in
  trace run.2 = trace st ++ evs ->
  In rejection (rejections evs) ->
  rejection <> EmptyString ->
  run.1 = Returned (failedWith ("Bundle submission failed: " +:+ rejection) None) /\
  polls evs = [] /\ sleeps evs = [] /\
  exists pre ev, evs = pre ++ [ev] /\ rejectionOf ev = Some rejection.
Proof.
  cbn zeta. intros Htr Hin Hne.
  destruct (executeBundle_emits fuel txs tgt st)
    as [evs' [Htr' [_ [target [_ Hcase]]]]].
  rewrite Htr in Htr'. apply app_inv_head in Htr'. subst evs'.
  destruct Hcase as [[message [Ho [Hp [Hs Hrej]]]]|[Hall _]].
  - destruct Hrej as [Hrej|[rej [pre [ev [_ [He [Hev [Hpre ->]]]]]]]].
    + rewrite Hrej in Hin. destruct Hin.
    + assert (rej = rejection) as ->.
      { subst evs. rewrite rejections_app, Hpre in Hin. cbn in Hin.
        rewrite Hev in Hin. destruct Hin as [H|[]]. exact H. }
      split; [exact Ho|]. split; [exact Hp|]. split; [exact Hs|]. eauto.
  - rewrite Forall_forall in Hall.
    destruct Hne. apply Hall, list_elem_of_In, Hin.
Qed.

(** **** Ending within the fuel *)

Lemma total_ret {A} (a : A) : total (World:=World) (ret a).
Proof. intros st. discriminate. Qed.

Lemma total_bind {A B} (m : M World A) (k : A -> M World B) :
  total m -> (forall a, total (k a)) -> total (bind m k).
Proof.
  intros Hm Hk st. unfold bind. specialize (Hm st).
  destruct (m st) as [[a|message|] st1]; cbn in *;
    [apply Hk | discriminate | congruence].
Qed.

Lemma total_tryCatch {A} (m : M World A) (h : string -> M World A) :
  total m -> (forall message, total (h message)) -> total (tryCatch m h).
Proof.
  intros Hm Hh st. unfold tryCatch. specialize (Hm st).
  destruct (m st) as [[a|message|] st1]; cbn in *;
    [discriminate | apply Hh | congruence].
Qed.

Lemma total_call {A} (ev : Reply A -> Event) (f : World -> Reply A * World) :
  total (call ev f).
Proof.
  intros st. unfold call. destruct (f (world st)) as [[a|message] w]; discriminate.
Qed.

Lemma emits_total {A} (m : M World A) (P : Outcome A -> list Event -> Prop) :
  emits m P -> (forall evs, ~ P OutOfFuel evs) -> total m.
Proof.
  intros Hm HP st Hout. destruct (Hm st) as [evs [_ H]].
  rewrite Hout in H. exact (HP evs H).
Qed.

Lemma returnsCalmly_total {A} (m : M World A) : emits m returnsCalmly -> total m.
Proof.
  intros Hm. apply (emits_total m _ Hm). intros evs [[a Ha] _]. discriminate.
Qed.

(** **** The values computed and the counters *)

Lemma keepsStats_ends {A} (m : M World A) :
  keepsStats m -> total m ->
  yields m (fun before out after => after = before /\ out <> OutOfFuel).
Proof. intros Hk Ht st. split; [apply Hk | apply Ht]. Qed.

Lemma yields_ret {A} (a : A) (P : BundleStats -> Outcome A -> BundleStats -> Prop) :
  (forall s, P s (Returned a) s) -> yields (World:=World) (ret a) P.
Proof. intros H st. apply H. Qed.

Lemma yields_throw {A} message (P : BundleStats -> Outcome A -> BundleStats -> Prop) :
  (forall s, P s (Threw message) s) -> yields (World:=World) (throw message) P.
Proof. intros H st. apply H. Qed.

Lemma yields_call {A} (ev : Reply A -> Event) (f : World -> Reply A * World)
    (P : BundleStats -> Outcome A -> BundleStats -> Prop) :
  (forall s a, P s (Returned a) s) ->
  (forall s message, P s (Threw message) s) ->
  yields (call ev f) P.
Proof.
  intros Hok Hfail st. unfold call.
  destruct (f (world st)) as [[a|message] w]; cbn; auto.
Qed.

Lemma yields_bind {A B} (m : M World A) (k : A -> M World B)
    (P : BundleStats -> Outcome A -> BundleStats -> Prop)
    (Q : A -> BundleStats -> Outcome B -> BundleStats -> Prop)
    (R : BundleStats -> Outcome B -> BundleStats -> Prop) :
  yields m P ->
  (forall a, yields (k a) (Q a)) ->
  (forall a s0 s1 out s2, P s0 (Returned a) s1 -> Q a s1 out s2 -> R s0 out s2) ->
  (forall message s0 s1, P s0 (Threw message) s1 -> R s0 (Threw message) s1) ->
  (forall s0 s1, P s0 OutOfFuel s1 -> R s0 OutOfFuel s1) ->
  yields (bind m k) R.
Proof.
  intros Hm Hk Hret Hthrow Hfuel st. unfold bind. specialize (Hm st).
  destruct (m st) as [[a|message|] st1]; cbn in Hm |- *.
  - eapply Hret; [exact Hm | apply Hk].
  - apply Hthrow, Hm.
  - apply Hfuel, Hm.
Qed.

Lemma yields_tryCatch {A} (m : M World A) (h : string -> M World A)
    (P : BundleStats -> Outcome A -> BundleStats -> Prop)
    (Q : string -> BundleStats -> Outcome A -> BundleStats -> Prop)
    (R : BundleStats -> Outcome A -> BundleStats -> Prop) :
  yields m P ->
  (forall message, yields (h message) (Q message)) ->
  (forall message s0 s1 out s2,
      P s0 (Threw message) s1 -> Q message s1 out s2 -> R s0 out s2) ->
  (forall a s0 s1, P s0 (Returned a) s1 -> R s0 (Returned a) s1) ->
  (forall s0 s1, P s0 OutOfFuel s1 -> R s0 OutOfFuel s1) ->
  yields (tryCatch m h) R.
Proof.
  intros Hm Hh Hcatch Hret Hfuel st. unfold tryCatch. specialize (Hm st).
  destruct (m st) as [[a|message|] st1]; cbn in Hm |- *.
  - apply Hret, Hm.
  - eapply Hcatch; [exact Hm | apply Hh].
  - apply Hfuel, Hm.
Qed.

Lemma yields_weaken {A} (m : M World A)
    (P Q : BundleStats -> Outcome A -> BundleStats -> Prop) :
  yields m P -> (forall s0 out s1, P s0 out s1 -> Q s0 out s1) -> yields m Q.
Proof. intros Hm HPQ st. apply HPQ, Hm. Qed.

Lemma keepsStats_ret {A} (a : A) : keepsStats (World:=World) (ret a).
Proof. apply yields_ret. reflexivity. Qed.

Lemma keepsStats_call {A} (ev : Reply A -> Event) (f : World -> Reply A * World) :
  keepsStats (call ev f).
Proof. apply yields_call; reflexivity. Qed.

Lemma keepsStats_bind {A B} (m : M World A) (k : A -> M World B) :
  keepsStats m -> (forall a, keepsStats (k a)) -> keepsStats (bind m k).
Proof.
  intros Hm Hk.
  eapply yields_bind with (Q := fun _ before _ after => after = before);
    [exact Hm | exact Hk | | |]; cbn.
  - intros a s0 s1 out s2 -> ->. reflexivity.
  - intros message s0 s1 ->. reflexivity.
  - intros s0 s1 ->. reflexivity.
Qed.

Lemma keepsStats_tryCatch {A} (m : M World A) (h : string -> M World A) :
  keepsStats m -> (forall message, keepsStats (h message)) ->
  keepsStats (tryCatch m h).
Proof.
  intros Hm Hh.
  eapply yields_tryCatch with (Q := fun _ before _ after => after = before);
    [exact Hm | exact Hh | | |]; cbn.
  - intros message s0 s1 out s2 -> ->. reflexivity.
  - intros a s0 s1 ->. reflexivity.
  - intros s0 s1 ->. reflexivity.
Qed.

Lemma estimateGas_keepsStats tx : keepsStats (estimateGas relay tx).
Proof.
  unfold estimateGas. apply keepsStats_tryCatch.
  - apply keepsStats_bind; [apply keepsStats_call|]. intros g. apply keepsStats_ret.
  - intros message. apply keepsStats_ret.
Qed.

Lemma prepareOne_keepsStats tx : keepsStats (prepareOne relay tx).
Proof.
  unfold prepareOne. apply keepsStats_tryCatch.
  - apply keepsStats_bind.
    + destruct (gasLimit tx); [apply keepsStats_ret|].
      apply keepsStats_bind; [apply estimateGas_keepsStats|].
      intros g. apply keepsStats_ret.
    + intros tx1. apply keepsStats_bind.
      * destruct (truthyNum _); [apply keepsStats_ret|].
        apply keepsStats_bind; [apply keepsStats_call|].
        intros n. apply keepsStats_ret.
      * intros tx3. apply keepsStats_ret.
  - intros message. apply keepsStats_ret.
Qed.

Lemma prepareBundleTransactions_keepsStats txs :
  keepsStats (prepareBundleTransactions relay txs).
Proof.
  induction txs as [|tx rest IH]; cbn; [apply keepsStats_ret|].
  apply keepsStats_bind; [apply prepareOne_keepsStats|]. intros prepared.
  apply keepsStats_bind; [exact IH|]. intros others. apply keepsStats_ret.
Qed.

Lemma submitBundle_keepsStats bundle target :
  keepsStats (submitBundle relay bundle target).
Proof.
  unfold submitBundle. apply keepsStats_tryCatch.
  - apply keepsStats_bind; [apply keepsStats_call|]. intros signed.
    apply keepsStats_bind; [apply keepsStats_call|]. intros hash.
    apply keepsStats_ret.
  - intros message. apply keepsStats_ret.
Qed.

Lemma checkBlock_keepsStats fuel blockNumber startTime timeout :
  keepsStats (checkBlock relay fuel blockNumber startTime timeout).
Proof.
  induction fuel as [|fuel IH]; cbn; [intros st; reflexivity|].
  apply keepsStats_bind; [apply keepsStats_call|]. intros currentBlock.
  destruct (blockNumber <=? currentBlock)%Z; [apply keepsStats_ret|].
  apply keepsStats_bind; [intros st; reflexivity|]. intros now.
  destruct (timeout <? now - startTime)%Z; [intros st; reflexivity|].
  apply keepsStats_bind; [intros st; reflexivity|]. intros _. exact IH.
Qed.

Lemma waitForBlock_keepsStats fuel blockNumber :
  keepsStats (waitForBlock relay fuel blockNumber).
Proof.
  unfold waitForBlock. apply keepsStats_bind; [intros st; reflexivity|].
  intros startTime. apply checkBlock_keepsStats.
Qed.

Lemma getTransactionHashFromBundle_keepsStats hash blockNo :
  keepsStats (getTransactionHashFromBundle relay hash blockNo).
Proof.
  unfold getTransactionHashFromBundle. apply keepsStats_tryCatch.
  - apply keepsStats_bind; [apply keepsStats_call|]. intros block.
    apply keepsStats_ret.
  - intros message. apply keepsStats_ret.
Qed.

Lemma pollInclusion_accounted fuel resp target i remaining :
  yields (pollInclusion relay fuel resp target i remaining) pollAccounted.
Proof.
  revert i. induction remaining as [|remaining IH]; intros i; cbn [pollInclusion].
  - apply yields_ret. intros s. left. split; [reflexivity|].
    intros r [= <-]. reflexivity.
  - eapply yields_bind with
      (P := fun before _ after => after = before) (Q := fun _ => pollAccounted).
    + apply waitForBlock_keepsStats.
    + intros _.
      eapply yields_bind with
        (P := fun before _ after => after = before) (Q := fun _ => pollAccounted).
      * apply keepsStats_call.
      * intros bundleStats. destruct (isMined bundleStats); [|apply IH].
        intros st. unfold bind, updateStats, ret.
        pose proof (getTransactionHashFromBundle_keepsStats (respBundleHash resp)
                      (target + i)
                      {| stats := bumpIncluded (stats st); world := world st;
                         trace := trace st |}) as Hkeep.
        destruct (getTransactionHashFromBundle_emits (respBundleHash resp)
                    (target + i)
                    {| stats := bumpIncluded (stats st); world := world st;
                       trace := trace st |}) as [evs [_ [[h Hh] _]]].
        cbn [fst snd].
        destruct (getTransactionHashFromBundle relay (respBundleHash resp)
                    (target + i) _) as [out st1].
        cbn [fst snd stats] in *. subst out. cbn [fst snd].
        right. eexists. split; [reflexivity|]. split; [reflexivity | exact Hkeep].
      * intros a s0 s1 out s2 -> H. exact H.
      * intros message s0 s1 ->. left. split; [reflexivity | discriminate].
      * intros s0 s1 ->. left. split; [reflexivity | discriminate].
    + intros a s0 s1 out s2 -> H. exact H.
    + intros message s0 s1 ->. left. split; [reflexivity | discriminate].
    + intros s0 s1 ->. left. split; [reflexivity | discriminate].
Qed.

Lemma waitForBundleInclusion_accounted fuel resp target window :
  yields (waitForBundleInclusion relay fuel resp target window)
    (fun before out after =>
       (forall message, out <> Threw message) /\ pollAccounted before out after).
Proof.
  unfold waitForBundleInclusion.
  eapply yields_tryCatch with
    (P := pollAccounted)
    (Q := fun message before out after =>
            after = before /\
            out = Returned (failedWith message (respBundleHash resp))).
  - apply pollInclusion_accounted.
  - intros message. apply yields_ret. auto.
  - intros message s0 s1 out s2 [[-> _]|[r [H _]]] [-> ->]; [|discriminate].
    split; [discriminate|]. left. split; [reflexivity|].
    intros r [= <-]. reflexivity.
  - intros a s0 s1 H. split; [discriminate | exact H].
  - intros s0 s1 H. split; [discriminate | exact H].
Qed.

(** The counters of the instance. A run that fails before its bundle is
    accepted adds one to [failed]; a run whose bundle is accepted adds
    one to [submitted], and one to [included] exactly when the result
    is a success. A bundle that was accepted and never mined is not
    counted in [failed]. *)
Theorem executeBundle_accounted fuel txs tgt :
  yields (executeBundle relay fuel txs tgt) accounted.
Proof.
  set (inner := fun (before : BundleStats) (out : Outcome ExecResult)
                    (after : BundleStats) =>
                  (after = before /\ exists message, out = Threw message) \/
                  ((forall message, out <> Threw message) /\
                   pollAccounted (bumpSubmitted before) out after)).
  set (quiet := fun (A : Type) (before : BundleStats) (out : Outcome A)
                    (after : BundleStats) =>
                  after = before /\ out <> OutOfFuel).
  unfold executeBundle.
  eapply yields_tryCatch with
    (P := inner)
    (Q := fun message before out after =>
            after = bumpFailed before /\
            out = Returned (failedWith message None)).
  - eapply yields_bind with (P := quiet Z) (Q := fun _ => inner).
    + apply keepsStats_ends.
      * destruct (truthyNum tgt); [apply keepsStats_ret|].
        apply keepsStats_bind; [apply keepsStats_call|]. intros c. apply keepsStats_ret.
      * destruct (truthyNum tgt); [apply total_ret|].
        apply total_bind; [apply total_call|]. intros c. apply total_ret.
    + intros target.
      eapply yields_bind with (P := quiet (list Tx)) (Q := fun _ => inner).
      * apply keepsStats_ends;
          [apply prepareBundleTransactions_keepsStats
          |apply returnsCalmly_total, prepareBundleTransactions_emits].
      * intros [|tx bundle]; [apply yields_throw; intros s; left; eauto|].
        eapply yields_bind with (P := quiet BundleResponse) (Q := fun _ => inner).
        -- apply keepsStats_ends; [apply submitBundle_keepsStats|].
           apply (emits_total _ _ (submitBundle_emits _ _)).
           intros evs [resp [H _]]. discriminate.
        -- intros resp.
           assert (Hwait :
                     yields (bind (updateStats bumpSubmitted)
                               (fun _ => waitForBundleInclusion relay fuel resp target 3))
                       inner).
           { intros st. unfold bind, updateStats. cbn [fst snd].
             right.
             exact (waitForBundleInclusion_accounted fuel resp target 3
                      {| stats := bumpSubmitted (stats st); world := world st;
                         trace := trace st |}). }
           destruct (respError resp) as [[|a s]|]; [exact Hwait | | exact Hwait].
           apply yields_throw. intros s0. left. eauto.
        -- intros a s0 s1 out s2 [-> _] H. exact H.
        -- intros message s0 s1 [-> _]. left. eauto.
        -- intros s0 s1 [_ H]. congruence.
      * intros a s0 s1 out s2 [-> _] H. exact H.
      * intros message s0 s1 [-> _]. left. eauto.
      * intros s0 s1 [_ H]. congruence.
    + intros a s0 s1 out s2 [-> _] H. exact H.
    + intros message s0 s1 [-> _]. left. eauto.
    + intros s0 s1 [_ H]. congruence.
  - intros message.
    eapply yields_bind with
      (P := fun before out after => after = bumpFailed before /\ out = Returned tt)
      (Q := fun _ before out after =>
              after = before /\ out = Returned (failedWith message None)).
    + intros st. cbn. auto.
    + intros _. apply yields_ret. auto.
    + intros [] s0 s1 out s2 [-> _] [-> ->]. auto.
    + intros m s0 s1 [_ H]. discriminate.
    + intros s0 s1 [_ H]. discriminate.
  - intros message s0 s1 out s2 [[-> _]|[H _]] [-> ->].
    + left. eauto.
    + destruct (H message eq_refl).
  - intros a s0 s1 [[_ [m H]]|[_ H]]; [discriminate|].
    destruct H as [[-> Hs]|[r [[= <-] [Hs ->]]]].
    + right. left. exists a. auto.
    + right. right. left. exists a. auto.
  - intros s0 s1 [[_ [m H]]|[_ H]]; [discriminate|].
    destruct H as [[-> _]|[r [H _]]]; [|discriminate].
    right. right. right. auto.
Qed.

(** Every run counts once, as a failure before acceptance or as a
    submission; [included] moves exactly with a successful result; and
    [totalGasUsed] is never written. *)
Theorem executeBundle_counters fuel txs tgt st r :
  let run := executeBundle relay fuel txs tgt st in
  let before := stats st in
  let after := stats run.2 in
  run.1 = Returned r ->
  (failed after + submitted after = S (failed before + submitted before))%nat /\
  included after = (if success r then S (included before) else included before) /\
  (success r = true -> submitted after = S (submitted before)) /\
  (included after - included before <= submitted after - submitted before)%nat /\
  totalGasUsed after = totalGasUsed before.
Proof.
  cbn zeta. intros Hr.
  pose proof (executeBundle_accounted fuel txs tgt st) as Hacc.
  rewrite Hr in Hacc.
  destruct Hacc as [[m [[= ->] ->]]|[[r' [[= <-] [Hs ->]]]|[[r' [[= <-] [Hs ->]]]|[H _]]]];
    [| | |discriminate]; try rewrite Hs; cbn; repeat split; try lia; try discriminate.
Qed.



(** With no transaction to send, [executeBundle] fails at once: the
    only call it may make is the one that reads the current block, the
    error is that call's message or "No valid transactions in bundle",
    and the run is counted as failed. *)
Theorem executeBundle_no_transactions fuel tgt st :
  let run := executeBundle relay fuel [] tgt st in
  exists message,
    run.1 = Returned (failedWith message None) /\
    stats run.2 = bumpFailed (stats st) /\
    ((trace run.2 = trace st /\ truthyNum tgt = true /\
      message = "No valid transactions in bundle") \/
     (trace run.2 = trace st ++ [EvGetBlockNumber] /\ truthyNum tgt = false /\
      (message = "No valid transactions in bundle" \/
       (getBlockNumber relay (world st)).1 = Fails message))).
Proof.
  cbn zeta. unfold executeBundle, tryCatch, bind, call, ret, throw, updateStats.
  destruct (truthyNum tgt) eqn:Ht; cbn.
  - eexists. split; [reflexivity|]. split; [reflexivity|]. left. auto.
  - destruct (getBlockNumber relay (world st)) as [[currentBlock|message] w]; cbn.
    + eexists. split; [reflexivity|]. split; [reflexivity|]. right. auto.
    + eexists. split; [reflexivity|]. split; [reflexivity|]. right. auto.
Qed.

(** **** Termination *)

Section Clock.

(** The clock does not go back while the provider answers, and a delay
    lasts at least as long as asked. *)
Hypothesis clock_call :
  forall w, (dateNow relay w <= dateNow relay (getBlockNumber relay w).2)%Z.
Hypothesis clock_sleep :
  forall ms w, (dateNow relay w + ms <= dateNow relay (sleep relay ms w))%Z.

Lemma checkBlock_ends fuel blockNumber startTime st :
  (1 <= fuel)%nat ->
  (31000 - (dateNow relay (world st) - startTime) < 1000 * Z.of_nat fuel)%Z ->
  (checkBlock relay fuel blockNumber startTime 30000 st).1 <> OutOfFuel.
Proof.
  revert st. induction fuel as [|fuel IH]; intros st Hone Hfuel; [lia|].
  cbn [checkBlock]. unfold bind, call, readClock, setTimeout, ret, throw.
  pose proof (clock_call (world st)) as Hcall.
  destruct (getBlockNumber relay (world st)) as [[currentBlock|message] w1];
    cbn [fst snd] in *; [|discriminate].
  destruct (blockNumber <=? currentBlock)%Z; [discriminate|].
  cbn [fst snd world].
  destruct (30000 <? dateNow relay w1 - startTime)%Z eqn:Hout; [discriminate|].
  apply Z.ltb_ge in Hout.
  pose proof (clock_sleep 1000 w1) as Hsleep.
  apply IH; cbn [world]; lia.
Qed.

Lemma checkBlock_bounded fuel blockNumber startTime st :
  let run := checkBlock relay fuel blockNumber startTime 30000 st in
  exists evs,
    trace run.2 = trace st ++ evs /\
    (1000 * Z.of_nat (length (sleeps evs))
     <= Z.max 0 (31000 - (dateNow relay (world st) - startTime)))%Z /\
    Forall (fun ms => ms = 1000%Z) (sleeps evs) /\
    (forall currentBlock, run.1 = Returned currentBlock ->
                          (blockNumber <= currentBlock)%Z).
Proof.
  cbn zeta. revert st. induction fuel as [|fuel IH]; intros st.
  - exists []. cbn. rewrite app_nil_r.
    split; [reflexivity|]. split; [lia|]. split; [constructor | discriminate].
  - cbn [checkBlock]. unfold bind, call, readClock, setTimeout, ret, throw.
    pose proof (clock_call (world st)) as Hcall.
    destruct (getBlockNumber relay (world st)) as [[currentBlock|message] w1];
      cbn [fst snd] in *.
    2:{ exists [EvGetBlockNumber]. cbn.
        split; [reflexivity|]. split; [lia|]. split; [constructor | discriminate]. }
    destruct (blockNumber <=? currentBlock)%Z eqn:Hreached.
    { exists [EvGetBlockNumber]. cbn.
      split; [reflexivity|]. split; [lia|]. split; [constructor|].
      intros c [= <-]. apply Z.leb_le, Hreached. }
    cbn [fst snd world].
    destruct (30000 <? dateNow relay w1 - startTime)%Z eqn:Hout.
    { exists [EvGetBlockNumber]. cbn.
      split; [reflexivity|]. split; [lia|]. split; [constructor | discriminate]. }
    apply Z.ltb_ge in Hout.
    pose proof (clock_sleep 1000 w1) as Hsleep.
    match goal with
    | |- context [checkBlock relay fuel blockNumber startTime 30000 ?s] =>
        destruct (IH s) as [evs [Htr [Hlen [Hall Hret]]]]
    end.
    cbn [world trace] in *.
    exists ([EvGetBlockNumber; EvSleep 1000] ++ evs).
    split; [rewrite Htr, <- !app_assoc; reflexivity|].
    rewrite sleeps_app.
    change (sleeps [EvGetBlockNumber; EvSleep 1000]) with [1000%Z].
    split; [|split; [constructor; [reflexivity | exact Hall] | exact Hret]].
    rewrite length_app, Nat2Z.inj_add.
    change (Z.of_nat (length [1000%Z])) with 1%Z. lia.
Qed.

(** [waitForBlock] does not wait for ever: with a clock that does not
    go back and delays that last, it makes at most 31 delays of one
    second each; a block it returns is the block asked for or a later
    one; and 32 rounds of fuel are enough for it to end. *)
Theorem waitForBlock_bounded fuel blockNumber st :
  let run := waitForBlock relay fuel blockNumber st in
  exists evs,
    trace run.2 = trace st ++ evs /\
    (length (sleeps evs) <= 31)%nat /\
    Forall (fun ms => ms = 1000%Z) (sleeps evs) /\
    (forall currentBlock, run.1 = Returned currentBlock ->
                          (blockNumber <= currentBlock)%Z) /\
    ((32 <= fuel)%nat -> run.1 <> OutOfFuel).
Proof.
  cbn zeta. unfold waitForBlock, bind, readClock. cbn [fst snd].
  destruct (checkBlock_bounded fuel blockNumber (dateNow relay (world st)) st)
    as [evs [Htr [Hlen [Hall Hret]]]].
  exists evs. split; [exact Htr|]. split; [lia|]. split; [exact Hall|].
  split; [exact Hret|].
  intros Hfuel. apply checkBlock_ends; lia.
Qed.

Lemma waitForBlock_total fuel blockNumber :
  (32 <= fuel)%nat -> total (waitForBlock relay fuel blockNumber).
Proof.
  intros Hfuel st. unfold waitForBlock, bind, readClock. cbn [fst snd].
  apply checkBlock_ends; lia.
Qed.

Lemma pollInclusion_total fuel resp target i remaining :
  (32 <= fuel)%nat -> total (pollInclusion relay fuel resp target i remaining).
Proof.
  intros Hfuel. revert i. induction remaining as [|remaining IH]; intros i; cbn.
  - apply total_ret.
  - apply total_bind; [apply waitForBlock_total, Hfuel|]. intros _.
    apply total_bind; [apply total_call|]. intros bundleStats.
    destruct (isMined bundleStats); [|apply IH].
    apply total_bind; [intros st; discriminate|]. intros _.
    apply total_bind;
      [apply returnsCalmly_total, getTransactionHashFromBundle_emits|].
    intros hash. apply total_ret.
Qed.

Lemma executeBundle_total fuel txs tgt :
  (32 <= fuel)%nat -> total (executeBundle relay fuel txs tgt).
Proof.
  intros Hfuel. unfold executeBundle. apply total_tryCatch.
  - apply total_bind.
    + destruct (truthyNum tgt); [apply total_ret|].
      apply total_bind; [apply total_call|]. intros c. apply total_ret.
    + intros target. apply total_bind;
        [apply returnsCalmly_total, prepareBundleTransactions_emits|].
      intros [|tx bundle]; [intros st; discriminate|].
      apply total_bind.
      * apply (emits_total _ _ (submitBundle_emits _ _)).
        intros evs [resp [H _]]. discriminate.
      * intros resp.
        assert (Hwait : total (bind (updateStats bumpSubmitted)
                                 (fun _ => waitForBundleInclusion relay fuel resp target 3))).
        { apply total_bind; [intros st; discriminate|]. intros _.
          unfold waitForBundleInclusion. apply total_tryCatch.
          - apply pollInclusion_total, Hfuel.
          - intros message. apply total_ret. }
        destruct (respError resp) as [[|a s]|]; [exact Hwait | | exact Hwait].
        intros st. discriminate.
  - intros message. apply total_bind; [intros st; discriminate|].
    intros _. apply total_ret.
Qed.

(** [executeBundle] hands its caller a result, never an exception:
    whatever the provider and the relay answer, with a clock that does
    not go back and delays that last, enough fuel for the polling of
    [waitForBlock] gives a returned result, and the result is a success
    exactly when it carries no error. *)
Theorem executeBundle_returns_result fuel txs tgt st :
  (32 <= fuel)%nat ->
  (forall fuel' message,
      (executeBundle relay fuel' txs tgt st).1 <> Threw message) /\
  exists r,
    (executeBundle relay fuel txs tgt st).1 = Returned r /\
    (success r = true <-> error r = None).
Proof.
  intros Hfuel. split.
  - intros fuel' message.
    destruct (executeBundle_emits fuel' txs tgt st) as [evs [_ [H _]]]. apply H.
  - pose proof (executeBundle_total fuel txs tgt Hfuel st) as Hends.
    destruct (executeBundle_emits fuel txs tgt st)
      as [evs [_ [_ [target [_ Hcase]]]]].
    destruct Hcase as [[message [Ho _]]|[_ [hash [pre [rest [_ [_ [_ [_ [k Hk]]]]]]]]]].
    + eexists. split; [exact Ho|]. cbn. split; discriminate.
    + destruct Hk as [[_ [Ho _]]|[[_ [[tx Ho] _]]|[[_ [[m Ho] _]]|[_ [Ho _]]]]];
        try (eexists; split; [exact Ho|]; cbn; split; congruence).
      congruence.
Qed.

End Clock.

End RelayFacts.

Lemma pending_relay_clock :
  (forall w, (FlashbotsExecutor.dateNow RelaySamples.pending w
              <= FlashbotsExecutor.dateNow RelaySamples.pending
                   (FlashbotsExecutor.getBlockNumber RelaySamples.pending w).2)%Z) /\
  (forall ms w, (FlashbotsExecutor.dateNow RelaySamples.pending w + ms
                 <= FlashbotsExecutor.dateNow RelaySamples.pending
                      (FlashbotsExecutor.sleep RelaySamples.pending ms w))%Z).
Proof. split; intros; cbn; lia. Qed.

Lemma executeBundle_rejected_submission_sample :
  (FlashbotsExecutor.executeBundle RelaySamples.rejecting 32
     [RelaySamples.transaction] None (FlashbotsExecutor.start 0%Z)).1
  = FlashbotsExecutor.Returned
      (FlashbotsExecutor.failedWith
         "Bundle submission failed: relay rejected the bundle" None).
Proof.
  refine (proj1 (executeBundle_rejected_submission RelaySamples.rejecting 32
                   [RelaySamples.transaction] None (FlashbotsExecutor.start 0%Z)
                   [FlashbotsExecutor.EvGetBlockNumber;
                    FlashbotsExecutor.EvEstimateGas;
                    FlashbotsExecutor.EvGetTransactionCount;
                    FlashbotsExecutor.EvSignBundle None;
                    FlashbotsExecutor.EvSendBundle 1 (Some "relay rejected the bundle")]
                   "relay rejected the bundle" _ _ _)).
  - vm_compute. reflexivity.
  - cbn. left. reflexivity.
  - discriminate.
Defined.

(** The scenario of the specification on the sample relay: the bundle
    is accepted for block 1 and the three polls of blocks 1, 2 and 3
    report it as not mined. *)
Lemma executeBundle_never_mined_sample :
  let run := FlashbotsExecutor.executeBundle RelaySamples.pending 32
               [RelaySamples.transaction] None (FlashbotsExecutor.start 0%Z) in
  run.1 = FlashbotsExecutor.Returned (FlashbotsExecutor.notIncluded (Some "0xb1")) /\
  FlashbotsExecutor.polls (FlashbotsExecutor.trace run.2)
  = FlashbotsExecutor.pendingPolls 1 3.
Proof. vm_compute. split; reflexivity. Qed.

Lemma waitForBlock_bounded_sample :
  exists evs,
    FlashbotsExecutor.trace
      (FlashbotsExecutor.waitForBlock RelaySamples.stalled 32 1
         (FlashbotsExecutor.start 0%Z)).2 = evs /\
    (length (FlashbotsExecutor.sleeps evs) <= 31)%nat.
Proof.
  destruct (waitForBlock_bounded RelaySamples.stalled
              (proj1 pending_relay_clock) (proj2 pending_relay_clock)
              32 1 (FlashbotsExecutor.start 0%Z))
    as [evs [Htr [Hlen _]]].
  exists evs. split; [exact Htr | exact Hlen].
Defined.

Lemma executeBundle_counters_sample :
  let run := FlashbotsExecutor.executeBundle RelaySamples.pending 32
               [RelaySamples.transaction] None (FlashbotsExecutor.start 0%Z) in
  (FlashbotsExecutor.failed (FlashbotsExecutor.stats run.2)
   + FlashbotsExecutor.submitted (FlashbotsExecutor.stats run.2) = 1)%nat.
Proof.
  cbn zeta.
  exact (proj1 (executeBundle_counters RelaySamples.pending 32
                  [RelaySamples.transaction] None (FlashbotsExecutor.start 0%Z)
                  (FlashbotsExecutor.notIncluded (Some "0xb1"))
                  ltac:(vm_compute; reflexivity))).
Defined.

Lemma executeBundle_returns_result_sample :
  exists r,
    (FlashbotsExecutor.executeBundle RelaySamples.pending 32
       [RelaySamples.transaction] None (FlashbotsExecutor.start 0%Z)).1
    = FlashbotsExecutor.Returned r.
Proof.
  destruct (executeBundle_returns_result RelaySamples.pending
              (proj1 pending_relay_clock) (proj2 pending_relay_clock)
              32 [RelaySamples.transaction] None (FlashbotsExecutor.start 0%Z)
              ltac:(lia)) as [_ [r [Hr _]]].
  exists r. exact Hr.
Defined.

(** [calculateMinerPayment] pays a tenth of the expected profit and
    never less than 0.01 ether, whatever gas was used; the payment stays
    within the expected profit exactly when that profit is 0.01 ether
    or more. *)
Theorem calculateMinerPayment_floor (expectedProfit gasUsed : Z) :
  let payment := FlashbotsExecutor.calculateMinerPayment expectedProfit gasUsed in
  payment = Z.max (Ethers.mulDiv expectedProfit 10 100) (Ethers.parseMilliEther 10) /\
  (Ethers.parseMilliEther 10 <= payment)%Z /\
  payment = FlashbotsExecutor.calculateMinerPayment expectedProfit 0 /\
  ((payment <= expectedProfit)%Z <-> (Ethers.parseMilliEther 10 <= expectedProfit)%Z).
Proof.
  cbn zeta. unfold FlashbotsExecutor.calculateMinerPayment.
  set (floor := Ethers.parseMilliEther 10).
  set (tenth := Ethers.mulDiv expectedProfit 10 100).
  assert (Hfloor : floor = (10 * 10 ^ 15)%Z) by reflexivity.
  assert (Htenth : (0 <= expectedProfit -> 0 <= tenth <= expectedProfit)%Z).
  { intros Hp. unfold tenth, Ethers.mulDiv. rewrite Z.quot_div_nonneg by lia.
    split; [apply Z.div_pos; lia | apply Z.div_le_upper_bound; lia]. }
  destruct (floor <? tenth)%Z eqn:Hlt;
    [apply Z.ltb_lt in Hlt | apply Z.ltb_ge in Hlt].
  - split; [lia|]. split; [lia|]. split; [reflexivity|].
    assert (0 <= expectedProfit)%Z.
    { destruct (Z.le_gt_cases 0 expectedProfit) as [H|H]; [exact H|].
      exfalso. unfold tenth, Ethers.mulDiv in Hlt.
      assert (expectedProfit * 10 <= 0)%Z by lia.
      pose proof (Z.quot_opp_l (expectedProfit * 10) 100 ltac:(lia)) as Hq.
      pose proof (Z.quot_pos (- (expectedProfit * 10)) 100 ltac:(lia) ltac:(lia)).
      lia. }
    specialize (Htenth H). lia.
  - split; [lia|]. split; [lia|]. split; [reflexivity|]. lia.
Qed.
